(** * copilot-prompt-logger: the logging pipeline of [src/logger.ts]

    A shallow embedding of the class [CopilotLogger] (the revision with the
    recent-prompt cache, retry logic and capture modes) and of the part of
    [ConfigManager] it reads.

    Strings.  A JavaScript string is a sequence of UTF-16 code units.  The
    embedding uses [string], whose characters are the code units 0..255
    (ASCII and Latin-1); every string literal of the embedded methods and
    of the documented scenarios lies in that range.  [trim], [toLowerCase] and the
    regular-expression classes are written out for that range.

    Effects.  The logger owns one mutable field ([recentPrompts]) and talks
    to the configuration, the clock and the file system.  These are the
    fields of [World]; the methods are functions in a small state and
    exception monad over it.  File-system calls fail when the fault schedule
    of the world says so.  The calls of the host run one after the other,
    each to its end: [await] is sequencing. *)

From Stdlib Require Import String Ascii List Bool Arith Lia DecimalString DecimalNat.
Import ListNotations.
Local Open Scope string_scope.
Local Open Scope list_scope.
Local Open Scope nat_scope.

(** ** JavaScript string primitives *)

Module JS.

Definition LF : ascii := ascii_of_nat 10.
Definition CR : ascii := ascii_of_nat 13.

Definition code (c : ascii) : nat := nat_of_ascii c.

Definition inRange (lo hi : nat) (c : ascii) : bool :=
  (lo <=? code c) && (code c <=? hi).

(** White space and line terminators of ECMAScript below U+0100:
    TAB, LF, VT, FF, CR, SP and NBSP.  This is what [trim] strips and what
    the class [\s] matches. *)
Definition isWhiteSpace (c : ascii) : bool :=
  inRange 9 13 c || (code c =? 32) || (code c =? 160).

(** Line terminators below U+0100: what [.] refuses and what [$] (flag m)
    looks for. *)
Definition isLineTerminator (c : ascii) : bool :=
  (code c =? 10) || (code c =? 13).

(** [\d] *)
Definition isDigit (c : ascii) : bool := inRange 48 57 c.

(** [\w] *)
Definition isWordChar (c : ascii) : bool :=
  inRange 97 122 c || inRange 65 90 c || isDigit c || (code c =? 95).

(** [String.prototype.toLowerCase] on one code unit below U+0100:
    A-Z, and the Latin-1 capitals U+00C0..U+00DE without U+00D7. *)
Definition lowerChar (c : ascii) : ascii :=
  if inRange 65 90 c
     || (inRange 192 222 c && negb (code c =? 215))
  then ascii_of_nat (code c + 32)
  else c.

Fixpoint toLowerCase (s : string) : string :=
  match s with
  | EmptyString => EmptyString
  | String c s' => String (lowerChar c) (toLowerCase s')
  end.

Fixpoint trimStart (s : string) : string :=
  match s with
  | EmptyString => EmptyString
  | String c s' => if isWhiteSpace c then trimStart s' else s
  end.

(** [trimEnd] keeps a character when it is not white space or when
    something is kept after it. *)
Fixpoint trimEnd (s : string) : string :=
  match s with
  | EmptyString => EmptyString
  | String c s' =>
      match trimEnd s' with
      | EmptyString => if isWhiteSpace c then EmptyString else String c EmptyString
      | t => String c t
      end
  end.

Definition trim (s : string) : string := trimEnd (trimStart s).

(** [s.startsWith(p)] *)
Fixpoint startsWith (p s : string) : bool :=
  match p with
  | EmptyString => true
  | String a p' =>
      match s with
      | EmptyString => false
      | String b s' => Ascii.eqb a b && startsWith p' s'
      end
  end.

(** [s.includes(p)] *)
Fixpoint includes (p s : string) : bool :=
  startsWith p s ||
  match s with
  | EmptyString => false
  | String _ s' => includes p s'
  end.

(** [s.substring(0, n)] for [0 <= n]. *)
Fixpoint substring0 (n : nat) (s : string) : string :=
  match n, s with
  | S n', String c s' => String c (substring0 n' s')
  | _, _ => EmptyString
  end.

(** The rest of [s] after its first [n] code units. *)
Fixpoint drop (n : nat) (s : string) : string :=
  match n, s with
  | S n', String _ s' => drop n' s'
  | _, _ => s
  end.

(** [s.split('\n')]: always at least one piece. *)
Fixpoint splitLines (s : string) : list string :=
  match s with
  | EmptyString => [EmptyString]
  | String c s' =>
      if Ascii.eqb c LF then EmptyString :: splitLines s'
      else match splitLines s' with
           | l :: ls => String c l :: ls
           | [] => [String c EmptyString]
           end
  end.

(** [lines.join('\n')] *)
Fixpoint joinLines (ls : list string) : string :=
  match ls with
  | [] => EmptyString
  | [l] => l
  | l :: ls' => (l ++ String LF (joinLines ls'))%string
  end.

(** [Array.prototype.includes] on an array of strings. *)
Definition arrayIncludes (x : string) (xs : list string) : bool :=
  existsb (String.eqb x) xs.

(** Truthiness of a string: [!s] is [true] exactly for the empty string. *)
Definition truthy (s : string) : bool :=
  match s with EmptyString => false | _ => true end.

End JS.

(** ** The regular expressions of [cleanupPrompt]

    Every pattern of [cleanupPrompt] is used with the flag [g] in
    [String.prototype.replace], none of them can match the empty string and
    none looks behind the position where it starts.  A pattern is therefore
    embedded as a function that tries to match at the start of the
    remaining input and, on success, returns the replacement text and the
    input that follows the match. *)

Module Regex.
Import JS.

Definition matcher : Type := string -> option (string * string).

(** [s.replace(re, ...)] with flag [g]: try the pattern at the current
    position; on a match emit the replacement and go on after the match,
    otherwise copy one code unit and go on at the next position.  The fuel
    bounds the number of positions. *)
Fixpoint replaceFrom (m : matcher) (fuel : nat) (s : string) : string :=
  match fuel with
  | 0 => s
  | S fuel' =>
      match m s with
      | Some (r, rest) => (r ++ replaceFrom m fuel' rest)%string
      | None =>
          match s with
          | EmptyString => EmptyString
          | String c s' => String c (replaceFrom m fuel' s')
          end
      end
  end.

Definition replaceAll (m : matcher) (s : string) : string :=
  replaceFrom m (String.length s) s.

(** What a greedy [.*] leaves: the input from the next line terminator on
    (or nothing).  With flag [m], [$] holds exactly there. *)
Fixpoint afterDotStar (s : string) : string :=
  match s with
  | EmptyString => EmptyString
  | String c s' => if isLineTerminator c then s else afterDotStar s'
  end.

(** What a greedy [.*] can run over: the input up to the next line
    terminator. *)
Fixpoint dotStar (s : string) : string :=
  match s with
  | EmptyString => EmptyString
  | String c s' => if isLineTerminator c then EmptyString else String c (dotStar s')
  end.

(** [/lit.*$/gm] replaced by the empty string. *)
Definition toEndOfLine (lit : string) : matcher := fun s =>
  if startsWith lit s
  then Some (EmptyString, afterDotStar (drop (String.length lit) s))
  else None.

(** [/### .*Prompt at.*$/gm]: the literal ["### "], then the words
    ["Prompt at"] somewhere before the end of the line. *)
Definition promptHeading : matcher := fun s =>
  if startsWith "### " s && includes "Prompt at" (dotStar (drop 4 s))
  then Some (EmptyString, afterDotStar (drop 4 s))
  else None.

Fixpoint skipWhile (p : ascii -> bool) (s : string) : string :=
  match s with
  | EmptyString => EmptyString
  | String c s' => if p c then skipWhile p s' else s
  end.

(** [/---+/g] *)
Definition dashRun : matcher := fun s =>
  if startsWith "---" s
  then Some (EmptyString, skipWhile (Ascii.eqb "-") (drop 3 s))
  else None.

(** A sequence of one-character classes, matched at the start of [s]. *)
Fixpoint matchClasses (cs : list (ascii -> bool)) (s : string) : option string :=
  match cs with
  | [] => Some s
  | p :: cs' =>
      match s with
      | EmptyString => None
      | String c s' => if p c then matchClasses cs' s' else None
      end
  end.

(** [/\d{4}-\d{2}-\d{2} \d{2}:\d{2}:\d{2}/g] *)
Definition timestampClasses : list (ascii -> bool) :=
  let d := isDigit in
  let l (a : ascii) := Ascii.eqb a in
  [d; d; d; d; l "-"; d; d; l "-"; d; d; l " ";
   d; d; l ":"; d; d; l ":"; d; d]%char.

Definition timestamp : matcher := fun s =>
  match matchClasses timestampClasses s with
  | Some rest => Some (EmptyString, rest)
  | None => None
  end.

(** The lazy [([\s\S]*?)```]: the text before the first closing fence and
    the input after it. *)
Fixpoint lazyToFence (s : string) : option (string * string) :=
  if startsWith "```" s then Some (EmptyString, drop 3 s)
  else match s with
       | EmptyString => None
       | String c s' =>
           match lazyToFence s' with
           | Some (inner, rest) => Some (String c inner, rest)
           | None => None
           end
       end.

(** [/```[\w]*\n([\s\S]*?)```/g] replaced by ['$1'].  The greedy [[\w]*]
    never gives characters back, as the line feed that must follow is not a
    word character. *)
Definition codeFence : matcher := fun s =>
  if startsWith "```" s then
    match skipWhile isWordChar (drop 3 s) with
    | String c body => if Ascii.eqb c LF then lazyToFence body else None
    | EmptyString => None
    end
  else None.

End Regex.

(** ** Text helpers of [CopilotLogger] *)

Import JS.

(** The array [patternsToRemove], in the order of the source. *)
Definition patternsToRemove : list Regex.matcher :=
  [ Regex.toEndOfLine "# GitHub Copilot Prompts Log";
    Regex.toEndOfLine "## Session Started:";
    Regex.toEndOfLine "## Session Ended:";
    Regex.promptHeading;
    Regex.toEndOfLine "#### Context";
    Regex.toEndOfLine "#### Input";
    Regex.toEndOfLine "Source:";
    Regex.toEndOfLine "File:";
    Regex.dashRun;
    Regex.timestamp ].

(** The loop [for (const pattern of patternsToRemove)], after the removal
    of the code fences. *)
Definition stripArtifacts (s : string) : string :=
  fold_left (fun cleaned pattern => Regex.replaceAll pattern cleaned)
            patternsToRemove
            (Regex.replaceAll Regex.codeFence s).

Definition nonBlank (line : string) : bool :=
  negb (String.eqb (trim line) EmptyString).

(** [split('\n').filter(line => line.trim() !== '')], then
    [join('\n').trim()]. *)
Definition dropBlankLines (s : string) : string :=
  trim (joinLines (filter nonBlank (splitLines s))).

Definition cleanupPrompt (promptText : string) : string :=
  if negb (truthy promptText) then EmptyString
  else dropBlankLines (stripArtifacts promptText).

Definition NL : string := String LF EmptyString.

(** [promptText.trim().toLowerCase()], the comparison key of
    [rememberPrompt] and [isDuplicate]. *)
Definition normalized (promptText : string) : string :=
  toLowerCase (trim promptText).

(** [!text || text.trim().length === 0] *)
Definition isBlank (text : string) : bool :=
  negb (truthy text) || (String.length (trim text) =? 0).

Definition isSystemMessage (text : string) : bool :=
  includes "Session Started" text ||
  includes "Session Ended" text ||
  includes "Prompt at" text ||
  startsWith "system:" text.

Definition truncateIfNeeded (text : string) (maxLength : nat) : string :=
  if String.length text <=? maxLength then text
  else (substring0 maxLength text ++ "... [truncated]")%string.

Definition responsePatterns : list string :=
  [ "Updated content goes here";
    "The content has been further updated";
    "Additional content has been added";
    "This ensures that all necessary details";
    "Key takeaways and actionable insights";
    "Further enhancements have been made";
    "Here is the implementation" ].

Definition looksLikeResponse (text : string) : bool :=
  if existsb (fun pattern => includes pattern text) responsePatterns then true
  else
    let isTooLong := 100 <? String.length text in
    let looksLikeComplete :=
      (startsWith "The" text && includes "." text) ||
      (startsWith "This" text && includes "." text) ||
      (startsWith "Updates" text && includes "." text) in
    let containsCodeBlocks :=
      includes "```" text ||
      (includes "{" text && includes "}" text && includes ";" text) in
    let containsExplanatory :=
      includes "function" text ||
      includes "class" text ||
      includes "method" text ||
      includes "implements" text in
    (isTooLong && looksLikeComplete) ||
    (isTooLong && containsCodeBlocks && containsExplanatory).

(** ** The world of the logger *)

(** What the embedding records of the effects on the host: every attempt
    on the log file, every pause between attempts and every error message
    shown to the user.  The console, the output channel and the status bar
    only receive diagnostics and are left out. *)
Inductive Event : Type :=
| EvMkdir (ok : bool)
| EvAppend (ok : bool)
| EvRead (ok : bool)
| EvWrite (ok : bool)
| EvSleep (ms : nat)
| EvShowError (message : string).

(** The embedding follows the one log file that [getLogFilePath] resolves
    (one workspace folder, one calendar day).

    - [enabled], [captureMode], [includeContext]: what [ConfigManager]
      returns ([isEnabled], [getCaptureMode], [includeContext]);
    - [recentPrompts]: the private field of the logger;
    - [dirExists], [logFile]: the log directory and the content of the log
      file ([None] while the file does not exist);
    - [faults]: the fault schedule of the file system, one entry for each
      call of [mkdirSync], [writeFileSync], [appendFileSync] and
      [readFileSync] to come; [true] makes the call throw, and calls past
      the end of the schedule succeed;
    - [clock]: what [moment().format(getTimestampFormat())] returns,
      [today]: what [new Date().toLocaleDateString()] returns;
    - [asRelativePath], [basename]: [vscode.workspace.asRelativePath(_,
      false)] and [path.basename];
    - [trace]: the events so far, the oldest first. *)
Record World : Type := mkWorld {
  enabled : bool;
  captureMode : string;
  includeContext : bool;
  recentPrompts : list string;
  dirExists : bool;
  logFile : option string;
  faults : list bool;
  clock : string;
  today : string;
  asRelativePath : string -> string;
  basename : string -> string;
  trace : list Event
}.

Definition setRecentPrompts (h : list string) (w : World) : World :=
  mkWorld (enabled w) (captureMode w) (includeContext w) h (dirExists w)
          (logFile w) (faults w) (clock w) (today w) (asRelativePath w)
          (basename w) (trace w).

Definition setDirExists (b : bool) (w : World) : World :=
  mkWorld (enabled w) (captureMode w) (includeContext w) (recentPrompts w) b
          (logFile w) (faults w) (clock w) (today w) (asRelativePath w)
          (basename w) (trace w).

Definition setLogFile (f : option string) (w : World) : World :=
  mkWorld (enabled w) (captureMode w) (includeContext w) (recentPrompts w)
          (dirExists w) f (faults w) (clock w) (today w) (asRelativePath w)
          (basename w) (trace w).

Definition setFaults (fs : list bool) (w : World) : World :=
  mkWorld (enabled w) (captureMode w) (includeContext w) (recentPrompts w)
          (dirExists w) (logFile w) fs (clock w) (today w) (asRelativePath w)
          (basename w) (trace w).

Definition setEnabled (b : bool) (w : World) : World :=
  mkWorld b (captureMode w) (includeContext w) (recentPrompts w)
          (dirExists w) (logFile w) (faults w) (clock w) (today w)
          (asRelativePath w) (basename w) (trace w).

Definition emit (e : Event) (w : World) : World :=
  mkWorld (enabled w) (captureMode w) (includeContext w) (recentPrompts w)
          (dirExists w) (logFile w) (faults w) (clock w) (today w)
          (asRelativePath w) (basename w) (trace w ++ [e]).

(** ** A state and exception monad over the world *)

Inductive Result (A : Type) : Type :=
| Ok (a : A)
| Throw (error : string).
Arguments Ok {A} a.
Arguments Throw {A} error.

Definition M (A : Type) : Type := World -> Result A * World.

Definition ret {A} (a : A) : M A := fun w => (Ok a, w).

Definition bind {A B} (c : M A) (k : A -> M B) : M B := fun w =>
  match c w with
  | (Ok a, w') => k a w'
  | (Throw e, w') => (Throw e, w')
  end.

Definition throw {A} (e : string) : M A := fun w => (Throw e, w).

(** [try { body } catch (error) { handler(error) }] *)
Definition tryCatch {A} (body : M A) (handler : string -> M A) : M A := fun w =>
  match body w with
  | (Ok a, w') => (Ok a, w')
  | (Throw e, w') => handler e w'
  end.

Definition gets {A} (f : World -> A) : M A := fun w => (Ok (f w), w).
Definition modify (f : World -> World) : M unit := fun w => (Ok tt, f w).

Declare Scope logger_scope.
Delimit Scope logger_scope with logger.
Notation "x <- c ;; k" := (bind c (fun x => k))
  (at level 61, c at next level, right associativity) : logger_scope.
Notation "c ;; k" := (bind c (fun _ => k))
  (at level 61, right associativity) : logger_scope.
Local Open Scope logger_scope.

(** The world after a computation, whatever it returned. *)
Definition exec {A} (c : M A) (w : World) : World := snd (c w).

(** ** The file system *)

Module Fs.

(** One fallible call: it takes the next entry of the fault schedule. *)
Definition nextFault : M bool := fun w =>
  match faults w with
  | [] => (Ok false, w)
  | b :: fs => (Ok b, setFaults fs w)
  end.

Definition mkdirSync : M unit :=
  fails <- nextFault ;;
  if fails then modify (emit (EvMkdir false)) ;; throw "EACCES: mkdir"
  else modify (fun w => emit (EvMkdir true) (setDirExists true w)).

Definition writeFileSync (content : string) : M unit :=
  fails <- nextFault ;;
  if fails then modify (emit (EvWrite false)) ;; throw "EACCES: write"
  else modify (fun w => emit (EvWrite true) (setLogFile (Some content) w)).

(** [appendFileSync] creates the file when it does not exist. *)
Definition appendFileSync (content : string) : M unit :=
  fails <- nextFault ;;
  if fails then modify (emit (EvAppend false)) ;; throw "EACCES: append"
  else modify (fun w =>
         let old := match logFile w with Some c => c | None => EmptyString end in
         emit (EvAppend true) (setLogFile (Some (old ++ content)%string) w)).

Definition readFileSync : M string :=
  fails <- nextFault ;;
  if fails then modify (emit (EvRead false)) ;; throw "EACCES: read"
  else
    f <- gets logFile ;;
    match f with
    | Some c => modify (emit (EvRead true)) ;; ret c
    | None => modify (emit (EvRead false)) ;; throw "ENOENT: read"
    end.

Definition existsSync : M bool :=
  f <- gets logFile ;;
  ret (match f with Some _ => true | None => false end).

(** [setTimeout] behind [await new Promise(...)]. *)
Definition sleep (ms : nat) : M unit := modify (emit (EvSleep ms)).

End Fs.

(** ** The methods of [CopilotLogger] *)

Definition MAX_RECENT_PROMPTS : nat := 20.

(** [String(error)] for an [Error] with the given message. *)
Definition showError (message : string) : string := ("Error: " ++ message)%string.

Definition decimal (n : nat) : string :=
  DecimalString.NilEmpty.string_of_uint (Nat.to_uint n).

(** The loop of [appendWithRetry], entered with [attempt = maxRetries -
    left]: one [appendFileSync]; when it throws and [attempt < maxRetries]
    the loop waits [delay] and goes round again, and after the last
    attempt the method throws. *)
Fixpoint appendAttempts (content : string) (maxRetries delay left : nat) : M unit :=
  tryCatch (Fs.appendFileSync content)
    (fun lastError =>
       match left with
       | S left' =>
           Fs.sleep delay ;; appendAttempts content maxRetries delay left'
       | 0 =>
           throw ("Failed to append after " ++ decimal maxRetries
                  ++ " retries: " ++ lastError)%string
       end).

Definition appendWithRetry (content : string) (maxRetries delay : nat) : M unit :=
  appendAttempts content maxRetries delay maxRetries.

(** The directory is made when it is missing.  The path itself is fixed:
    a throwing [mkdirSync] stands for the case where neither the workspace
    folder nor the folder in the home directory can be made, in which the
    method throws. *)
Definition getLogFilePath : M unit :=
  there <- gets dirExists ;;
  if there then ret tt else Fs.mkdirSync.

Definition logHeader (date : string) : string :=
  ("# GitHub Copilot Prompts Log - " ++ date ++ NL
   ++ "This file contains logs of prompts sent to GitHub Copilot."
   ++ NL ++ NL)%string.

(** After [getLogFilePath] has returned, the directory of the path exists,
    so the branch of [initLogFile] that makes it is not entered. *)
Definition initLogFile : M unit :=
  tryCatch
    (getLogFilePath ;;
     there <- Fs.existsSync ;;
     if there then ret tt
     else
       date <- gets today ;;
       Fs.writeFileSync (logHeader date))
    (fun error =>
       modify (emit (EvShowError
         ("Failed to initialize log file: " ++ showError error)%string)) ;;
       throw error).

Definition appendToLog (content : string) : M unit :=
  on <- gets enabled ;;
  if negb on then ret tt
  else if isBlank content then ret tt
  else
    tryCatch
      (initLogFile ;;
       tryCatch
         (appendWithRetry content 3 100)
         (fun appendError =>
            there <- Fs.existsSync ;;
            currentContent <- (if there then Fs.readFileSync else ret EmptyString) ;;
            Fs.writeFileSync (currentContent ++ content)%string))
      (fun error =>
         modify (emit (EvShowError
           ("Failed to append to log file: " ++ showError error)%string))).

Definition rememberPrompt (promptText : string) : M unit :=
  modify (fun w =>
    let unshifted := normalized promptText :: recentPrompts w in
    setRecentPrompts
      (if MAX_RECENT_PROMPTS <? List.length unshifted
       then removelast unshifted else unshifted) w).

Definition isDuplicate (promptText : string) : M bool :=
  gets (fun w => arrayIncludes (normalized promptText) (recentPrompts w)).

(** [context && context.trim() && context !== promptText &&
    !context.includes('User Input') && this.configManager.includeContext()],
    as the condition of an [if]. *)
Definition shouldIncludeContext (context promptText : string) : M bool :=
  flag <- gets includeContext ;;
  ret (truthy context && truthy (trim context)
       && negb (String.eqb context promptText)
       && negb (includes "User Input" context)
       && flag).

Definition fence : string := "```".

Definition contextBlock (truncatedContext : string) : string :=
  ("#### Context" ++ NL ++ NL ++ fence ++ NL ++ truncatedContext ++ NL
   ++ fence ++ NL ++ NL)%string.

Definition inputBlock (cleanPrompt : string) : string :=
  ("#### Input" ++ NL ++ NL ++ fence ++ NL ++ cleanPrompt ++ NL
   ++ fence ++ NL ++ NL)%string.

(** The entry that [logPrompt] builds: heading, source line, the context
    block when there is one, the input block and the separator. *)
Definition promptEntry (timestamp relativePath : string)
    (context : option string) (cleanPrompt : string) : string :=
  (NL ++ "### User Prompt at " ++ timestamp ++ NL ++ NL
   ++ "Source: " ++ relativePath ++ NL ++ NL
   ++ match context with
      | Some c => contextBlock (truncateIfNeeded c 500)
      | None => EmptyString
      end
   ++ inputBlock cleanPrompt
   ++ "---" ++ NL)%string.

(** [fileName] has the type [string] in the source, so the test
    [typeof fileName === 'string'] holds. *)
Definition logPrompt (fileName context promptText : string) : M unit :=
  if isBlank promptText then ret tt
  else
    dup <- isDuplicate promptText ;;
    if dup then ret tt
    else
      let cleanPrompt := cleanupPrompt promptText in
      if isBlank cleanPrompt || isSystemMessage cleanPrompt then ret tt
      else
        mode <- gets captureMode ;;
        if String.eqb mode "userInputOnly" && looksLikeResponse cleanPrompt
        then ret tt
        else
          rememberPrompt cleanPrompt ;;
          timestamp <- gets clock ;;
          rel <- gets asRelativePath ;;
          withContext <- shouldIncludeContext context cleanPrompt ;;
          appendToLog
            (promptEntry timestamp (rel fileName)
               (if withContext then Some context else None) cleanPrompt).

(** The entry that [logUserInput] builds. *)
Definition userInputEntry (timestamp source promptText : string) : string :=
  (NL ++ "### User Prompt at " ++ timestamp ++ NL ++ NL
   ++ "Source: " ++ source ++ NL ++ NL
   ++ fence ++ NL ++ promptText ++ NL ++ fence ++ NL ++ NL
   ++ "---" ++ NL)%string.

Definition logUserInput (fileName promptText : string) : M unit :=
  if isBlank promptText then ret tt
  else
    let promptText := trim promptText in
    dup <- isDuplicate promptText ;;
    if dup then ret tt
    else
      modify (fun w =>
        let unshifted := promptText :: recentPrompts w in
        setRecentPrompts
          (if MAX_RECENT_PROMPTS <? List.length unshifted
           then removelast unshifted else unshifted) w) ;;
      timestamp <- gets clock ;;
      base <- gets basename ;;
      let source :=
        if String.eqb fileName "Copilot Chat" then "Copilot Chat"
        else base fileName in
      appendToLog (userInputEntry timestamp source promptText).

Definition chatEntry (timestamp message : string) : string :=
  (NL ++ "### Chat Message at " ++ timestamp ++ NL ++ NL
   ++ fence ++ NL ++ message ++ NL ++ fence ++ NL ++ NL
   ++ "---" ++ NL)%string.

Definition logChatMessage (message : string) : M unit :=
  if isBlank message then ret tt
  else
    dup <- isDuplicate message ;;
    if dup then ret tt
    else
      rememberPrompt message ;;
      timestamp <- gets clock ;;
      appendToLog (chatEntry timestamp message).

(** ** Sequences of calls *)

(** What the host can do to the logger between two observations. *)
Inductive Command : Type :=
| CmdEnable
| CmdDisable
| CmdLogPrompt (fileName context promptText : string)
| CmdLogUserInput (fileName promptText : string)
| CmdLogChatMessage (message : string).

Definition step (c : Command) (w : World) : World :=
  match c with
  | CmdEnable => setEnabled true w
  | CmdDisable => setEnabled false w
  | CmdLogPrompt f c p => exec (logPrompt f c p) w
  | CmdLogUserInput f p => exec (logUserInput f p) w
  | CmdLogChatMessage m => exec (logChatMessage m) w
  end.

Definition run (cs : list Command) (w : World) : World :=
  fold_left (fun w c => step c w) cs w.

(** A logger that has just been constructed, in a workspace without a
    log file for the day, with the default configuration and a file system
    that does not fail. *)
Definition freshWorld : World :=
  {| enabled := true;
     captureMode := "userInputOnly";
     includeContext := false;
     recentPrompts := [];
     dirExists := false;
     logFile := None;
     faults := [];
     clock := "2025-05-05 10:00:00";
     today := "5/5/2025";
     asRelativePath := fun p => p;
     basename := fun p => p;
     trace := [] |}.

(** ** Auxiliary definitions for the statements *)

(** Some character of the string is not white space. *)
Fixpoint hasInk (s : string) : bool :=
  match s with
  | EmptyString => false
  | String c s' => negb (isWhiteSpace c) || hasInk s'
  end.

(** The string is empty or starts with a character that is not white
    space. *)
Definition startsInk (s : string) : bool :=
  match s with
  | EmptyString => true
  | String c _ => negb (isWhiteSpace c)
  end.

Fixpoint noLF (s : string) : bool :=
  match s with
  | EmptyString => true
  | String c s' => negb (Ascii.eqb c LF) && noLF s'
  end.

(** The pattern matches at some position of the string. *)
Fixpoint matchesAnywhere (m : Regex.matcher) (s : string) : bool :=
  (match m s with Some _ => true | None => false end) ||
  match s with
  | EmptyString => false
  | String _ s' => matchesAnywhere m s'
  end.

(** Some pattern that [cleanupPrompt] removes occurs in the string: a code
    fence with its closing fence, a log heading, a [Source:] or [File:]
    label, three dashes or a timestamp. *)
Definition hasArtifact (s : string) : bool :=
  existsb (fun m => matchesAnywhere m s) (Regex.codeFence :: patternsToRemove).

(** What the log file holds before an entry is appended: its content, or
    the header that [initLogFile] writes when the file is missing. *)
Definition fileBase (w : World) : string :=
  match logFile w with
  | Some content => content
  | None => logHeader (today w)
  end.

Definition setCaptureMode (mode : string) (w : World) : World :=
  mkWorld (enabled w) mode (includeContext w) (recentPrompts w)
          (dirExists w) (logFile w) (faults w) (clock w) (today w)
          (asRelativePath w) (basename w) (trace w).

Definition setIncludeContext (b : bool) (w : World) : World :=
  mkWorld (enabled w) (captureMode w) b (recentPrompts w)
          (dirExists w) (logFile w) (faults w) (clock w) (today w)
          (asRelativePath w) (basename w) (trace w).

(** The context that [logPrompt] puts into the entry, if any. *)
Definition contextFor (w : World) (context cleanPrompt : string) : option string :=
  if truthy context && truthy (trim context)
     && negb (String.eqb context cleanPrompt)
     && negb (includes "User Input" context)
     && includeContext w
  then Some context else None.

(** The four tests of [logPrompt] before [rememberPrompt], in one. *)
Definition logPromptAccepts (w : World) (promptText : string) : bool :=
  negb (isBlank promptText)
  && negb (arrayIncludes (normalized promptText) (recentPrompts w))
  && negb (isBlank (cleanupPrompt promptText)
           || isSystemMessage (cleanupPrompt promptText))
  && negb (String.eqb (captureMode w) "userInputOnly"
           && looksLikeResponse (cleanupPrompt promptText)).

(** The entry that an accepted call of [logPrompt] hands to
    [appendToLog]. *)
Definition logPromptEntry (w : World) (fileName context promptText : string) : string :=
  promptEntry (clock w) (asRelativePath w fileName)
    (contextFor w context (cleanupPrompt promptText))
    (cleanupPrompt promptText).

(** The two tests of [logUserInput] before the history is updated. *)
Definition logUserInputAccepts (w : World) (promptText : string) : bool :=
  negb (isBlank promptText)
  && negb (arrayIncludes (normalized (trim promptText)) (recentPrompts w)).

Definition logUserInputEntry (w : World) (fileName promptText : string) : string :=
  userInputEntry (clock w)
    (if String.eqb fileName "Copilot Chat" then "Copilot Chat"
     else basename w fileName)
    (trim promptText).

(** [unshift] followed by the conditional [pop]. *)
Definition unshiftBounded (key : string) (history : list string) : list string :=
  if MAX_RECENT_PROMPTS <? List.length (key :: history)
  then removelast (key :: history) else key :: history.

(** The computation leaves the component [f] of the world as it was,
    whether it returns or throws. *)
Definition keeps {X A : Type} (f : World -> X) (c : M A) : Prop :=
  forall w, f (snd (c w)) = f w.

(** [rememberPrompt] for each text of a list, the first one first. *)
Definition rememberAll (prompts : list string) (w : World) : World :=
  fold_left (fun w p => exec (rememberPrompt p) w) prompts w.

(** The same prompts submitted one after the other through
    [logUserInput]. *)
Definition feedUserInputs (fileName : string) (prompts : list string) (w : World) : World :=
  run (map (CmdLogUserInput fileName) prompts) w.

(** A decision procedure for "no string occurs twice". *)
Fixpoint nodupb (l : list string) : bool :=
  match l with
  | [] => true
  | x :: l' => negb (arrayIncludes x l') && nodupb l'
  end.

(** Twenty-five prompts with distinct comparison keys. *)
Definition prompts25 : list string :=
  map (fun n => ("Prompt number " ++ decimal n)%string) (seq 1 25).

(** The text of the capture-mode scenario. *)
Definition responseText : string :=
  "Here is the implementation of the function you requested.".


(** The events of an [appendWithRetry] with 3 retries and a delay of
    100 ms whose attempts all fail. *)
Definition failedAppendEvents : list Event :=
  [EvAppend false; EvSleep 100; EvAppend false; EvSleep 100;
   EvAppend false; EvSleep 100; EvAppend false].



(** [n] copies of a character. *)
Fixpoint replicate (n : nat) (c : ascii) : string :=
  match n with
  | 0 => EmptyString
  | S n' => String c (replicate n' c)
  end.

(** A context of 600 characters and a world that includes contexts. *)
Definition context600 : string := replicate 600 "c".

Definition contextWorld : World := setIncludeContext true freshWorld.

(** A fault schedule that makes four appends fail and lets the fallback
    through. *)
Definition fallbackFaults (rest : list bool) : list bool :=
  [true; true; true; true; false; false] ++ rest.

(** A match of the pattern takes at least one code unit away: the input
    left after it is shorter. *)
Definition consumes (m : Regex.matcher) : Prop :=
  forall s r rest, m s = Some (r, rest) -> String.length rest < String.length s.

(** ** Session markers and the callers of the logger *)

Definition sessionStartContent (timestamp : string) : string :=
  (NL ++ "## Session Started: " ++ timestamp ++ NL ++ NL)%string.

Definition sessionEndContent (timestamp : string) : string :=
  (NL ++ "## Session Ended: " ++ timestamp ++ NL ++ NL)%string.

Definition logSessionStart : M unit :=
  timestamp <- gets clock ;;
  appendToLog (sessionStartContent timestamp).

Definition logSessionEnd : M unit :=
  timestamp <- gets clock ;;
  appendToLog (sessionEndContent timestamp).

(** The handler that [setupCopilotListeners] of [src/extension.ts]
    registers for [github.copilot.chat.sendRequest]. *)
Definition onSendRequest (prompt : string) : M unit :=
  on <- gets enabled ;;
  if on && truthy prompt
  then logPrompt "Copilot Chat" "User Input" prompt
  else ret tt.

(** The proxy that [setupCopilotListeners] puts in the place of
    [vscode.commands.executeCommand], up to the call of the original
    function.  [arg0] is the first argument when there is one and it is a
    string. *)
Definition onExecuteCommand (command : string) (arg0 : option string) : M unit :=
  on <- gets enabled ;;
  if on then
    if String.eqb command "github.copilot.chat.sendRequest"
       || String.eqb command "github.copilot.interactiveSession.request"
    then
      match arg0 with
      | Some userInput =>
          if truthy userInput && negb (startsWith "system:" userInput)
             && truthy (trim userInput)
          then logPrompt "Copilot Chat" "User Input" (trim userInput)
          else ret tt
      | None => ret tt
      end
    else ret tt
  else ret tt.

(** Everything the host can make the logger do. *)
Inductive Call : Type :=
| CallCommand (c : Command)
| CallSessionStart
| CallSessionEnd
| CallSendRequest (prompt : string)
| CallExecuteCommand (command : string) (arg0 : option string).

Definition stepCall (c : Call) (w : World) : World :=
  match c with
  | CallCommand c => step c w
  | CallSessionStart => exec logSessionStart w
  | CallSessionEnd => exec logSessionEnd w
  | CallSendRequest p => exec (onSendRequest p) w
  | CallExecuteCommand command arg0 => exec (onExecuteCommand command arg0) w
  end.


(** The computation returns, it does not throw. *)
Definition returns {A : Type} (c : M A) : Prop :=
  forall w, exists a, fst (c w) = Ok a.

(** The events of [k] failed appends, each followed by its pause. *)
Definition retryEvents (delay k : nat) : list Event :=
  concat (repeat [EvAppend false; EvSleep delay] k).

(** A match of the pattern puts back no more than it takes away. *)
Definition nonExpanding (m : Regex.matcher) : Prop :=
  forall s r rest, m s = Some (r, rest) ->
    String.length r + String.length rest <= String.length s.

(** The pattern can only match where the input starts with a character
    of the class [heads]. *)
Definition startsOnlyAt (heads : ascii -> bool) (m : Regex.matcher) : Prop :=
  forall c s, heads c = false -> m (String c s) = None.

(** The first characters of the patterns of [cleanupPrompt]: a backtick, a
    hash, [S], [F], a dash or a digit. *)
Definition patternHead (c : ascii) : bool :=
  Ascii.eqb c "`" || Ascii.eqb c "#" || Ascii.eqb c "S" || Ascii.eqb c "F"
  || Ascii.eqb c "-" || isDigit c.

(** The text of the log file, empty while the file does not exist. *)
Definition fileText (w : World) : string :=
  match logFile w with
  | Some content => content
  | None => EmptyString
  end.

(** Every character of the string is in the class. *)
Fixpoint allChars (p : ascii -> bool) (s : string) : bool :=
  match s with
  | EmptyString => true
  | String c s' => p c && allChars p s'
  end.

(** A timestamp that cannot be taken for a heading or a fence and stays on
    one line: no hash, no backtick, no line terminator. *)
Definition plainTimestamp (timestamp : string) : bool :=
  allChars (fun c => negb (Ascii.eqb c "#") && negb (Ascii.eqb c "`")
                     && negb (isLineTerminator c)) timestamp.

(** A hash or a backtick. *)
Definition hashOrTick (c : ascii) : bool :=
  Ascii.eqb c "#" || Ascii.eqb c "`".

(** ** The name of the log file *)

(** [s.padStart(2, '0')] *)
Definition padStart2 (s : string) : string :=
  (replicate (2 - String.length s) "0" ++ s)%string.

(** The date in the file name of [getLogFilePath], from [getFullYear()],
    [getMonth()] (which counts from 0) and [getDate()]. *)
Definition dateString (year month date : nat) : string :=
  (decimal year ++ "-" ++ padStart2 (decimal (month + 1)) ++ "-"
   ++ padStart2 (decimal date))%string.

Definition logFileName (year month date : nat) : string :=
  ("prompt-log-" ++ dateString year month date ++ ".md")%string.

(** [padStart2] tells the numbers below [bound] apart. *)
Definition padStart2_distinct_below (bound : nat) : bool :=
  forallb (fun n =>
    forallb (fun n' =>
      implb (String.eqb (padStart2 (decimal n)) (padStart2 (decimal n')))
            (n =? n'))
      (seq 0 bound))
    (seq 0 bound).



(** ** The text-change listener of the later [extension.ts] *)

(** [s.endsWith(p)] *)
Fixpoint endsWith (p s : string) : bool :=
  String.eqb p s ||
  match s with
  | EmptyString => false
  | String _ s' => endsWith p s'
  end.

(** The verbs of
    [/^(add|create|update|write|generate|fix|implement|refactor|optimize|show)/i].
    With flag [i] a letter of the pattern matches itself in either case, so
    the test looks for the verb at the start of the text in lower case. *)
Definition commandVerbs : list string :=
  ["add"; "create"; "update"; "write"; "generate"; "fix"; "implement";
   "refactor"; "optimize"; "show"].

Definition startsWithVerb (text : string) : bool :=
  existsb (fun verb => startsWith verb (toLowerCase text)) commandVerbs.

(** [.*[.!?]$] without flag [m]: characters that are not line terminators,
    the last one a full stop, an exclamation mark or a question mark, up to
    the end of the text. *)
Fixpoint sentenceTail (s : string) : bool :=
  match s with
  | EmptyString => false
  | String c EmptyString =>
      Ascii.eqb c "." || Ascii.eqb c "!" || Ascii.eqb c "?"
  | String c s' => negb (isLineTerminator c) && sentenceTail s'
  end.

(** [/^[A-Z].*[.!?]$/] *)
Definition sentenceShape (text : string) : bool :=
  match text with
  | EmptyString => false
  | String c rest => inRange 65 90 c && sentenceTail rest
  end.

Definition isLikelyPrompt (text : string) : bool :=
  includes "?" text
  || startsWithVerb text
  || ((List.length (splitLines text) <=? 2) && sentenceShape text).

(** [for (const x of xs) body(x)] *)
Fixpoint forEach {A : Type} (xs : list A) (body : A -> M unit) : M unit :=
  match xs with
  | [] => ret tt
  | x :: xs' => bind (body x) (fun _ => forEach xs' body)
  end.

(** The handler of [onDidChangeTextDocument] in [setupCopilotListeners].
    [activeFile] is the file name of the active editor when there is one
    and the event is about its document; [changes] are the texts of
    [event.contentChanges].  The calls of [logUserInput] are started in the
    order of the changes, and each has updated the history before the next
    one starts; the embedding runs each call to its end. *)
Definition onTextChange (activeFile : option string) (changes : list string) : M unit :=
  on <- gets enabled ;;
  if negb on then ret tt
  else
    match activeFile with
    | None => ret tt
    | Some fileName =>
        if includes "prompt-log" fileName || endsWith ".md" fileName
        then ret tt
        else
          forEach changes (fun text =>
            if truthy text
               && (5 <? String.length (trim text))
               && (String.length (trim text) <? 200)
            then
              if isLikelyPrompt text then logUserInput fileName text
              else ret tt
            else ret tt)
    end.

(** ** [cleanupPrompt] of the first revision of [logger.ts] *)

Module FirstRevision.

(** [/```[\s\S]*?```/g] replaced by one space. *)
Definition codeBlock : Regex.matcher := fun s =>
  if startsWith "```" s then
    match Regex.lazyToFence (drop 3 s) with
    | Some (_, rest) => Some (" ", rest)
    | None => None
    end
  else None.

(** The patterns that are replaced by the empty string, in the order of
    the source: five headings, the timestamp, the dashes. *)
Definition artifactPatterns : list Regex.matcher :=
  [ Regex.toEndOfLine "# GitHub Copilot Prompts Log";
    Regex.toEndOfLine "## Session Started:";
    Regex.toEndOfLine "### Prompt at";
    Regex.toEndOfLine "#### Context";
    Regex.toEndOfLine "#### Prompt/Generated Content";
    Regex.timestamp;
    Regex.dashRun ].

(** [/^(Processing|Thinking|Analyzing|Context:|Received:)/i], on one
    line. *)
Definition noisePrefixes : list string :=
  ["processing"; "thinking"; "analyzing"; "context:"; "received:"].

Definition isNoiseLine (line : string) : bool :=
  existsb (fun prefix => startsWith prefix (toLowerCase line)) noisePrefixes.

(** [/^(```|---|###|####)/], on one line. *)
Definition isMarkupLine (line : string) : bool :=
  existsb (fun prefix => startsWith prefix line) ["```"; "---"; "###"; "####"].

Definition keepLine (line : string) : bool :=
  negb (isNoiseLine line) && negb (isMarkupLine line)
  && negb (String.eqb (trim line) EmptyString).

(** [/\s+/g] replaced by one space. *)
Definition whiteSpaceRun : Regex.matcher := fun s =>
  match s with
  | EmptyString => None
  | String c s' =>
      if isWhiteSpace c then Some (" ", Regex.skipWhile isWhiteSpace s')
      else None
  end.

Definition cleanupPrompt (promptText : string) : string :=
  if negb (truthy promptText) then EmptyString
  else
    let promptText := Regex.replaceAll codeBlock promptText in
    let promptText :=
      fold_left (fun text pattern => Regex.replaceAll pattern text)
                artifactPatterns promptText in
    let lines := filter keepLine (splitLines promptText) in
    let promptText := trim (joinLines lines) in
    trim (Regex.replaceAll whiteSpaceRun promptText).

End FirstRevision.

(** White space occurs in the text only as single spaces: [afterSpace]
    tells that the character before was a space. *)
Fixpoint singleSpaced (afterSpace : bool) (s : string) : bool :=
  match s with
  | EmptyString => true
  | String c s' =>
      if isWhiteSpace c
      then Ascii.eqb c " " && negb afterSpace && singleSpaced true s'
      else singleSpaced false s'
  end.

(** * Facts about the string primitives *)

Section StringFacts.


Lemma append_assoc (a b c : string) :
  ((a ++ b) ++ c)%string = (a ++ (b ++ c))%string.
Proof. induction a as [|x a IH]; simpl; [reflexivity | now rewrite IH]. Qed.

Lemma length_append (a b : string) :
  String.length (a ++ b) = String.length a + String.length b.
Proof. induction a as [|x a IH]; simpl; [reflexivity | now rewrite IH]. Qed.

Lemma startsWith_spec (p s : string) :
  startsWith p s = true <-> exists rest, s = (p ++ rest)%string.
Proof.
  revert s; induction p as [|a p IH]; intros s; simpl.
  - split; [intros _; now exists s | reflexivity].
  - destruct s as [|b s].
    + split; [discriminate | intros [r Hr]; discriminate].
    + rewrite andb_true_iff, Ascii.eqb_eq, IH. split.
      * intros [-> [r ->]]. now exists r.
      * intros [r Hr]. injection Hr as -> ->. split; [reflexivity | now exists r].
Qed.

Lemma includes_spec (p s : string) :
  includes p s = true <-> exists before rest, s = (before ++ p ++ rest)%string.
Proof.
  induction s as [|c s IH].
  - cbn [includes]. rewrite orb_false_r, startsWith_spec. split.
    + intros [r Hr]. now exists EmptyString, r.
    + intros [b [r Hr]]. destruct b; [now exists r | discriminate].
  - cbn [includes]. rewrite orb_true_iff, startsWith_spec, IH. split.
    + intros [[r Hr] | [b [r Hr]]].
      * now exists EmptyString, r.
      * exists (String c b), r. simpl. now rewrite Hr.
    + intros [b [r Hr]]. destruct b as [|x b].
      * left. now exists r.
      * right. simpl in Hr. injection Hr as _ Hr. now exists b, r.
Qed.

Lemma lowerChar_idempotent (c : ascii) : lowerChar (lowerChar c) = lowerChar c.
Proof.
  destruct c as [[] [] [] [] [] [] [] []]; reflexivity.
Qed.

Lemma toLowerCase_idempotent (s : string) :
  toLowerCase (toLowerCase s) = toLowerCase s.
Proof.
  induction s as [|c s IH]; simpl; [reflexivity|].
  now rewrite lowerChar_idempotent, IH.
Qed.

Lemma substring0_drop (n : nat) (s : string) :
  (substring0 n s ++ drop n s)%string = s.
Proof.
  revert s; induction n as [|n IH]; intros [|c s]; simpl; try reflexivity.
  now rewrite IH.
Qed.

Lemma length_substring0 (n : nat) (s : string) :
  n <= String.length s -> String.length (substring0 n s) = n.
Proof.
  revert s; induction n as [|n IH]; intros [|c s] H; simpl in *; try lia.
  rewrite IH; lia.
Qed.

Lemma substring0_all (n : nat) (s : string) :
  String.length s <= n -> substring0 n s = s.
Proof.
  revert s; induction n as [|n IH]; intros [|c s] H; simpl in *;
    try reflexivity; try lia.
  rewrite IH; [reflexivity | lia].
Qed.

(** *** Trimming *)

Lemma trimStart_startsInk (s : string) : startsInk (trimStart s) = true.
Proof.
  induction s as [|c s IH]; simpl; [reflexivity|].
  destruct (isWhiteSpace c) eqn:E; [exact IH | simpl; now rewrite E].
Qed.

Lemma trimStart_fixed (s : string) : startsInk s = true -> trimStart s = s.
Proof.
  destruct s as [|c s]; simpl; [reflexivity|].
  now destruct (isWhiteSpace c).
Qed.

Lemma trimEnd_startsInk (s : string) :
  startsInk s = true -> startsInk (trimEnd s) = true.
Proof.
  destruct s as [|c s]; simpl; [reflexivity|]. intros H.
  destruct (isWhiteSpace c) eqn:E; [discriminate|].
  destruct (trimEnd s); simpl; now rewrite E.
Qed.

Lemma trimEnd_idempotent (s : string) : trimEnd (trimEnd s) = trimEnd s.
Proof.
  induction s as [|c s IH]; simpl; [reflexivity|].
  destruct (trimEnd s) as [|d t] eqn:E.
  - destruct (isWhiteSpace c) eqn:W; simpl; [reflexivity | now rewrite W].
  - cbn [trimEnd]. cbn [trimEnd] in IH. now rewrite IH.
Qed.

Theorem trim_idempotent (s : string) : trim (trim s) = trim s.
Proof.
  unfold trim.
  rewrite (trimStart_fixed (trimEnd (trimStart s))).
  - apply trimEnd_idempotent.
  - apply trimEnd_startsInk, trimStart_startsInk.
Qed.

Lemma trimEnd_empty (s : string) : trimEnd s = EmptyString <-> hasInk s = false.
Proof.
  induction s as [|c s IH]; simpl; [tauto|].
  destruct (trimEnd s) as [|d t].
  - destruct (isWhiteSpace c); simpl.
    + tauto.
    + split; discriminate.
  - split; [discriminate|]. intros H. apply orb_false_elim in H.
    destruct H as [_ H]. apply IH in H. discriminate.
Qed.

Lemma hasInk_trimStart (s : string) : hasInk (trimStart s) = hasInk s.
Proof.
  induction s as [|c s IH]; simpl; [reflexivity|].
  destruct (isWhiteSpace c) eqn:E; simpl; [exact IH | now rewrite E].
Qed.

Lemma trim_empty (s : string) : trim s = EmptyString <-> hasInk s = false.
Proof. unfold trim. now rewrite trimEnd_empty, hasInk_trimStart. Qed.

Lemma length_zero (s : string) : String.length s = 0 <-> s = EmptyString.
Proof. destruct s; simpl; split; congruence. Qed.

Lemma isBlank_hasInk (s : string) : isBlank s = negb (hasInk s).
Proof.
  unfold isBlank. destruct (hasInk s) eqn:H.
  - destruct s as [|c s]; [discriminate|]. simpl.
    destruct (String.length (trim (String c s)) =? 0) eqn:L; [|reflexivity].
    apply Nat.eqb_eq, length_zero, trim_empty in L. congruence.
  - apply trim_empty in H. rewrite H. simpl. apply orb_true_r.
Qed.

Lemma nonBlank_hasInk (s : string) : nonBlank s = hasInk s.
Proof.
  unfold nonBlank. destruct (hasInk s) eqn:H.
  - destruct (String.eqb (trim s) "") eqn:E; [|reflexivity].
    apply String.eqb_eq, trim_empty in E. congruence.
  - apply trim_empty in H. now rewrite H.
Qed.

Lemma hasInk_trim (s : string) : hasInk (trim s) = hasInk s.
Proof.
  destruct (hasInk s) eqn:H.
  - destruct (hasInk (trim s)) eqn:H'; [reflexivity|].
    apply trim_empty in H'. rewrite trim_idempotent in H'.
    apply trim_empty in H'. congruence.
  - apply trim_empty in H. now rewrite H.
Qed.

Lemma isBlank_trim (s : string) : isBlank (trim s) = isBlank s.
Proof. now rewrite !isBlank_hasInk, hasInk_trim. Qed.

Lemma normalized_trim (s : string) : normalized (trim s) = normalized s.
Proof. unfold normalized. now rewrite trim_idempotent. Qed.

End StringFacts.

(** * Lines: [split], [join] and the removal of blank lines *)

Section Lines.

Lemma splitLines_cons (s : string) : exists l ls, splitLines s = l :: ls.
Proof.
  induction s as [|c s [l [ls IH]]]; simpl; [now eexists; eexists|].
  destruct (Ascii.eqb c LF); [now eexists; eexists|].
  rewrite IH. now eexists; eexists.
Qed.

Lemma joinLines_cons (l : string) (ls : list string) :
  ls <> [] -> joinLines (l :: ls) = (l ++ String LF (joinLines ls))%string.
Proof. destruct ls; [congruence | reflexivity]. Qed.

Lemma joinLines_splitLines (s : string) : joinLines (splitLines s) = s.
Proof.
  induction s as [|c s IH]; simpl; [reflexivity|].
  destruct (splitLines_cons s) as [l [ls E]]. rewrite E in *.
  destruct (Ascii.eqb c LF) eqn:C.
  - apply Ascii.eqb_eq in C. subst c.
    rewrite (joinLines_cons EmptyString) by discriminate.
    cbn [append]. now rewrite IH.
  - destruct ls as [|l' ls].
    + simpl in *. now rewrite IH.
    + rewrite (joinLines_cons (String c l)) by discriminate.
      rewrite joinLines_cons in IH by discriminate.
      cbn [append]. now rewrite IH.
Qed.

Lemma splitLines_noLF (s : string) : forallb noLF (splitLines s) = true.
Proof.
  induction s as [|c s IH]; simpl; [reflexivity|].
  destruct (Ascii.eqb c LF) eqn:C; [exact IH|].
  destruct (splitLines s) as [|l ls]; simpl in *; rewrite C; [reflexivity|exact IH].
Qed.

Lemma splitLines_single (l : string) : noLF l = true -> splitLines l = [l].
Proof.
  induction l as [|c l IH]; simpl; [reflexivity|]. intros H.
  apply andb_prop in H. destruct H as [C H].
  apply negb_true_iff in C. rewrite C, (IH H). reflexivity.
Qed.

Lemma splitLines_append (l x : string) :
  noLF l = true ->
  splitLines (l ++ String LF x) = l :: splitLines x.
Proof.
  induction l as [|c l IH]; simpl; [reflexivity|]. intros H.
  apply andb_prop in H. destruct H as [C H].
  apply negb_true_iff in C. rewrite C, (IH H). reflexivity.
Qed.

Lemma splitLines_joinLines (ls : list string) :
  ls <> [] -> forallb noLF ls = true -> splitLines (joinLines ls) = ls.
Proof.
  induction ls as [|l ls IH]; [congruence|]. intros _ H.
  simpl in H. apply andb_prop in H. destruct H as [Hl Hls].
  destruct ls as [|l' ls].
  - simpl. now apply splitLines_single.
  - rewrite joinLines_cons by discriminate.
    rewrite splitLines_append by exact Hl.
    rewrite IH; [reflexivity | discriminate | exact Hls].
Qed.

Lemma forallb_filter {A} (p q : A -> bool) (l : list A) :
  forallb p l = true -> forallb p (filter q l) = true.
Proof.
  induction l as [|a l IH]; simpl; [reflexivity|]. intros H.
  apply andb_prop in H. destruct H as [Ha Hl].
  destruct (q a); simpl; [rewrite Ha|]; auto.
Qed.

Lemma forallb_filter_self {A} (p : A -> bool) (l : list A) :
  forallb p (filter p l) = true.
Proof.
  induction l as [|a l IH]; simpl; [reflexivity|].
  destruct (p a) eqn:E; simpl; [rewrite E|]; auto.
Qed.

Lemma filter_all {A} (p : A -> bool) (l : list A) :
  forallb p l = true -> filter p l = l.
Proof.
  induction l as [|a l IH]; simpl; [reflexivity|]. intros H.
  apply andb_prop in H. destruct H as [Ha Hl]. now rewrite Ha, IH.
Qed.

Lemma forallb_pointwise {A} (p q : A -> bool) (l : list A) :
  (forall a, p a = q a) -> forallb p l = forallb q l.
Proof.
  intros H. induction l as [|a l IH]; simpl; [reflexivity|].
  now rewrite H, IH.
Qed.

(** Trimming on the left keeps every line inked when every line was. *)
Lemma inkLines_trimStart (s : string) :
  forallb hasInk (splitLines s) = true ->
  forallb hasInk (splitLines (trimStart s)) = true.
Proof.
  induction s as [|c s IH]; [trivial|].
  cbn [trimStart]. destruct (isWhiteSpace c) eqn:W; [|trivial].
  cbn [splitLines]. destruct (Ascii.eqb c LF) eqn:C; [discriminate|].
  destruct (splitLines_cons s) as [l [ls E]]. rewrite E in *.
  cbn [forallb hasInk]. rewrite W. exact IH.
Qed.

(** Trimming on the right touches the last line only: the later lines stay
    inked, and the first line is inked exactly when it was. *)
Lemma lines_trimEnd (s : string) :
  forallb hasInk (tl (splitLines s)) = true ->
  forallb hasInk (tl (splitLines (trimEnd s))) = true /\
  hasInk (hd EmptyString (splitLines (trimEnd s)))
  = hasInk (hd EmptyString (splitLines s)).
Proof.
  induction s as [|c s IH]; [intros _; split; reflexivity|].
  cbn [splitLines]. destruct (Ascii.eqb c LF) eqn:C.
  - apply Ascii.eqb_eq in C. subst c. cbn [tl hd]. intros H.
    destruct (splitLines_cons s) as [l [ls E]]. rewrite E in *.
    cbn [forallb] in H. apply andb_prop in H. destruct H as [Hl Hls].
    destruct (IH Hls) as [IH1 IH2]. cbn [hd] in IH2.
    cbn [trimEnd]. destruct (trimEnd s) as [|d t] eqn:T.
    + simpl in IH2. congruence.
    + change (splitLines (String LF (String d t)))
        with (EmptyString :: splitLines (String d t)).
      cbn [tl hd]. split; [|reflexivity].
      destruct (splitLines_cons (String d t)) as [l' [ls' E']].
      rewrite E' in *. cbn [forallb tl hd] in *.
      now rewrite IH2, Hl, IH1.
  - destruct (splitLines_cons s) as [l [ls E]]. rewrite E in *.
    cbn [tl hd]. intros H. destruct (IH H) as [IH1 IH2]. cbn [hd] in IH2.
    cbn [trimEnd]. destruct (trimEnd s) as [|d t] eqn:T.
    + simpl in IH2. destruct (isWhiteSpace c) eqn:W.
      * simpl. rewrite W. simpl. split; [reflexivity | exact IH2].
      * simpl. rewrite C. simpl. rewrite W. simpl. split; reflexivity.
    + remember (String d t) as u. cbn [splitLines]. rewrite C.
      destruct (splitLines_cons u) as [l' [ls' E']]. rewrite E' in *.
      cbn [tl hd hasInk] in *. split; [exact IH1 | now rewrite IH2].
Qed.

Lemma inkLines_trimEnd (s : string) :
  forallb hasInk (splitLines s) = true ->
  forallb hasInk (splitLines (trimEnd s)) = true.
Proof.
  intros H. destruct (splitLines_cons s) as [l [ls E]].
  destruct (splitLines_cons (trimEnd s)) as [l' [ls' E']].
  pose proof (lines_trimEnd s) as L. rewrite E, E' in *.
  cbn [forallb tl hd] in *. apply andb_prop in H. destruct H as [Hl Hls].
  destruct (L Hls) as [L1 L2]. now rewrite L2, Hl, L1.
Qed.

Lemma inkLines_trim (s : string) :
  forallb hasInk (splitLines s) = true ->
  forallb hasInk (splitLines (trim s)) = true.
Proof. intros H. now apply inkLines_trimEnd, inkLines_trimStart. Qed.

(** A text whose lines are all inked and that is already trimmed is left
    alone by the last stage of [cleanupPrompt]. *)
Lemma dropBlankLines_fixed (t : string) :
  forallb hasInk (splitLines t) = true -> trim t = t -> dropBlankLines t = t.
Proof.
  intros H T. unfold dropBlankLines.
  rewrite (filter_all nonBlank).
  - now rewrite joinLines_splitLines.
  - rewrite (forallb_pointwise nonBlank hasInk); [exact H|].
    apply nonBlank_hasInk.
Qed.

Theorem dropBlankLines_idempotent (s : string) :
  dropBlankLines (dropBlankLines s) = dropBlankLines s.
Proof.
  unfold dropBlankLines at 2 3.
  set (ls := filter nonBlank (splitLines s)).
  assert (Hink : forallb hasInk ls = true).
  { rewrite (forallb_pointwise hasInk nonBlank).
    - apply forallb_filter_self.
    - intros; symmetry; apply nonBlank_hasInk. }
  assert (Hlf : forallb noLF ls = true)
    by apply forallb_filter, splitLines_noLF.
  destruct ls as [|l ls'] eqn:E; [reflexivity|].
  apply dropBlankLines_fixed; [|apply trim_idempotent].
  apply inkLines_trim.
  rewrite splitLines_joinLines; [exact Hink | discriminate | exact Hlf].
Qed.

End Lines.

(** * The replacement loop has fuel enough

    [replaceAll] gives [replaceFrom] as much fuel as the input is long.
    Every pattern of [cleanupPrompt] consumes input when it matches, so the
    loop reaches the end of the input before the fuel is used up: more fuel
    gives the same result. *)

Section Fuel.

Lemma length_drop (n : nat) (s : string) :
  String.length (drop n s) = String.length s - n.
Proof.
  revert s; induction n as [|n IH]; intros [|c s]; simpl; try reflexivity.
  apply IH.
Qed.

Lemma startsWith_length (p s : string) :
  startsWith p s = true -> String.length p <= String.length s.
Proof.
  intros H. apply startsWith_spec in H. destruct H as [r ->].
  rewrite length_append. lia.
Qed.

Lemma length_afterDotStar (s : string) :
  String.length (Regex.afterDotStar s) <= String.length s.
Proof.
  induction s as [|c s IH]; simpl; [lia|].
  destruct (isLineTerminator c); simpl; lia.
Qed.

Lemma length_skipWhile (p : ascii -> bool) (s : string) :
  String.length (Regex.skipWhile p s) <= String.length s.
Proof.
  induction s as [|c s IH]; simpl; [lia|]. destruct (p c); simpl; lia.
Qed.

Lemma length_matchClasses (cs : list (ascii -> bool)) (s rest : string) :
  Regex.matchClasses cs s = Some rest ->
  String.length rest + List.length cs = String.length s.
Proof.
  revert s; induction cs as [|p cs IH]; intros s; simpl.
  - intros H. injection H as ->. lia.
  - destruct s as [|c s]; [discriminate|]. destruct (p c); [|discriminate].
    intros H. apply IH in H. simpl. lia.
Qed.

Lemma length_lazyToFence (s inner rest : string) :
  Regex.lazyToFence s = Some (inner, rest) ->
  String.length rest <= String.length s.
Proof.
  revert inner; induction s as [|c s IH]; intros inner.
  - cbn. discriminate.
  - cbn [Regex.lazyToFence]. destruct (startsWith "```" (String c s)).
    + intros H. injection H as _ <-.
      pose proof (length_drop 3 (String c s)) as D. cbn [drop] in *. lia.
    + destruct (Regex.lazyToFence s) as [[i r]|]; [|discriminate].
      intros H. injection H as _ <-. specialize (IH i eq_refl). simpl. lia.
Qed.

Lemma consumes_toEndOfLine (lit : string) :
  0 < String.length lit -> consumes (Regex.toEndOfLine lit).
Proof.
  intros Hl s r rest. unfold Regex.toEndOfLine.
  destruct (startsWith lit s) eqn:E; [|discriminate].
  intros H. injection H as _ <-. apply startsWith_length in E.
  pose proof (length_afterDotStar (drop (String.length lit) s)).
  rewrite length_drop in *. lia.
Qed.

Lemma consumes_promptHeading : consumes Regex.promptHeading.
Proof.
  intros s r rest. unfold Regex.promptHeading.
  pose proof (length_drop 4 s) as D. remember (drop 4 s) as d.
  destruct (startsWith "### " s) eqn:E; [|discriminate].
  destruct (includes _ _); [|discriminate]. cbn [andb].
  intros H. injection H as _ <-. apply startsWith_length in E.
  pose proof (length_afterDotStar d) as A.
  change (String.length "### ") with 4 in E. lia.
Qed.

Lemma consumes_dashRun : consumes Regex.dashRun.
Proof.
  intros s r rest. unfold Regex.dashRun.
  pose proof (length_drop 3 s) as D. remember (drop 3 s) as d.
  destruct (startsWith "---" s) eqn:E; [|discriminate].
  intros H. injection H as _ <-. apply startsWith_length in E.
  pose proof (length_skipWhile (Ascii.eqb "-") d) as A.
  change (String.length "---") with 3 in E. lia.
Qed.

Lemma consumes_timestamp : consumes Regex.timestamp.
Proof.
  intros s r rest. unfold Regex.timestamp.
  destruct (Regex.matchClasses _ s) as [x|] eqn:E; [|discriminate].
  intros H. injection H as _ <-. apply length_matchClasses in E.
  simpl in E. lia.
Qed.

Lemma consumes_codeFence : consumes Regex.codeFence.
Proof.
  intros s r rest. unfold Regex.codeFence.
  destruct (startsWith "```" s) eqn:E; [|discriminate].
  apply startsWith_length in E. change (String.length "```") with 3 in E.
  pose proof (length_drop 3 s) as D. remember (drop 3 s) as d.
  pose proof (length_skipWhile isWordChar d) as Hw.
  destruct (Regex.skipWhile isWordChar d) as [|c body];
    [discriminate|].
  destruct (Ascii.eqb c LF); [|discriminate].
  intros H. apply length_lazyToFence in H. cbn [String.length] in Hw. lia.
Qed.

Lemma replaceFrom_fuel (m : Regex.matcher) :
  consumes m ->
  forall n k s, String.length s <= n -> String.length s <= k ->
  Regex.replaceFrom m n s = Regex.replaceFrom m k s.
Proof.
  intros Hm. induction n as [|n IH]; intros k s Hn Hk.
  - destruct s; [|simpl in Hn; lia]. destruct k; [reflexivity|].
    cbn [Regex.replaceFrom]. destruct (m EmptyString) as [[r rest]|] eqn:E;
      [|reflexivity].
    apply Hm in E. simpl in E. lia.
  - destruct k as [|k].
    + destruct s; [|simpl in Hk; lia]. cbn [Regex.replaceFrom].
      destruct (m EmptyString) as [[r rest]|] eqn:E; [|reflexivity].
      apply Hm in E. simpl in E. lia.
    + cbn [Regex.replaceFrom]. destruct (m s) as [[r rest]|] eqn:E.
      * apply Hm in E. f_equal. apply IH; lia.
      * destruct s as [|c s]; [reflexivity|]. simpl in Hn, Hk.
        f_equal. apply IH; lia.
Qed.

(** The patterns of [cleanupPrompt] all consume input. *)
Lemma patterns_consume :
  Forall consumes (Regex.codeFence :: patternsToRemove).
Proof.
  unfold patternsToRemove.
  repeat (apply Forall_cons || apply Forall_nil);
    try (apply consumes_toEndOfLine; simpl; lia).
  - apply consumes_codeFence.
  - apply consumes_promptHeading.
  - apply consumes_dashRun.
  - apply consumes_timestamp.
Qed.

(** For each of them, [replaceAll] is the loop run with any fuel that is
    at least the length of the input. *)
Theorem replaceAll_any_fuel (m : Regex.matcher) (fuel : nat) (s : string) :
  In m (Regex.codeFence :: patternsToRemove) ->
  String.length s <= fuel ->
  Regex.replaceFrom m fuel s = Regex.replaceAll m s.
Proof.
  intros Hin Hf. pose proof patterns_consume as P.
  rewrite Forall_forall in P. unfold Regex.replaceAll.
  apply replaceFrom_fuel; [now apply P | exact Hf | lia].
Qed.

End Fuel.

(** * [cleanupPrompt] *)

Section Cleanup.

Lemma replaceFrom_no_match (m : Regex.matcher) (fuel : nat) (s : string) :
  matchesAnywhere m s = false -> Regex.replaceFrom m fuel s = s.
Proof.
  revert s; induction fuel as [|fuel IH]; intros s H; [reflexivity|].
  cbn [Regex.replaceFrom].
  destruct s as [|c s]; cbn [matchesAnywhere] in H;
    apply orb_false_elim in H; destruct H as [Hm Hs];
    destruct (m _); try discriminate; [reflexivity|].
  now rewrite IH.
Qed.

Lemma removeAll_clean (patterns : list Regex.matcher) (s : string) :
  existsb (fun m => matchesAnywhere m s) patterns = false ->
  fold_left (fun cleaned pattern => Regex.replaceAll pattern cleaned) patterns s
  = s.
Proof.
  induction patterns as [|m ms IH]; cbn [existsb fold_left]; [reflexivity|].
  intros H. apply orb_false_elim in H. destruct H as [Hm Hms].
  unfold Regex.replaceAll at 2. rewrite replaceFrom_no_match by exact Hm.
  now apply IH.
Qed.

Lemma stripArtifacts_clean (s : string) :
  hasArtifact s = false -> stripArtifacts s = s.
Proof.
  unfold hasArtifact, stripArtifacts. cbn [existsb]. intros H.
  apply orb_false_elim in H. destruct H as [Hfence Hrest].
  unfold Regex.replaceAll at 2. rewrite replaceFrom_no_match by exact Hfence.
  now apply removeAll_clean.
Qed.

Lemma cleanupPrompt_fixed (t : string) :
  stripArtifacts t = t -> dropBlankLines t = t -> cleanupPrompt t = t.
Proof.
  intros S D. unfold cleanupPrompt.
  destruct t; [reflexivity|]. cbn [truthy negb]. now rewrite S.
Qed.

Lemma cleanupPrompt_dropBlankLines (s : string) :
  dropBlankLines (cleanupPrompt s) = cleanupPrompt s.
Proof.
  unfold cleanupPrompt. destruct (negb (truthy s)); [reflexivity|].
  apply dropBlankLines_idempotent.
Qed.

End Cleanup.

(** C2, as stated, fails: the removal of the dashes uncovers a [Source:]
    label that the pass for it has already gone by, so a second cleanup
    removes what the first one returned. *)
Lemma cleanupPrompt_not_idempotent :
  cleanupPrompt (cleanupPrompt "Sou---rce: x") <> cleanupPrompt "Sou---rce: x".
Proof. vm_compute. discriminate. Qed.

(** C2 (amended): normalization is idempotent on every string whose
    normalized form holds no removable artifact: when no pattern of
    [cleanupPrompt] matches anywhere in [cleanupPrompt s], cleaning it once
    more returns it unchanged.  The last stage of the cleanup, which drops
    the blank lines and trims, is idempotent on every string. *)
Theorem cleanupPrompt_idempotent_without_artifact (s : string) :
  dropBlankLines (dropBlankLines s) = dropBlankLines s /\
  (hasArtifact (cleanupPrompt s) = false ->
   cleanupPrompt (cleanupPrompt s) = cleanupPrompt s).
Proof.
  split; [apply dropBlankLines_idempotent|].
  intros H. apply cleanupPrompt_fixed.
  - now apply stripArtifacts_clean.
  - apply cleanupPrompt_dropBlankLines.
Qed.

Lemma cleanupPrompt_idempotent_without_artifact_witness :
  hasArtifact (cleanupPrompt "  fix the bug in ```parse``` ") = false /\
  cleanupPrompt (cleanupPrompt "  fix the bug in ```parse``` ")
  = cleanupPrompt "  fix the bug in ```parse``` ".
Proof.
  split; [reflexivity|].
  destruct (cleanupPrompt_idempotent_without_artifact
              "  fix the bug in ```parse``` ") as [_ H].
  apply H. reflexivity.
Defined.

(** * The writer *)

Ltac monad_unfold :=
  cbv beta iota delta
    [bind ret gets modify throw tryCatch exec fst snd
     Fs.nextFault Fs.mkdirSync Fs.writeFileSync Fs.appendFileSync
     Fs.readFileSync Fs.existsSync Fs.sleep
     setRecentPrompts setDirExists setLogFile setFaults setEnabled emit
     enabled captureMode includeContext recentPrompts dirExists logFile
     faults clock today asRelativePath basename trace].

Section Writer.

Lemma promptEntry_not_blank (timestamp relativePath : string)
    (context : option string) (cleanPrompt : string) :
  isBlank (promptEntry timestamp relativePath context cleanPrompt) = false.
Proof. rewrite isBlank_hasInk. reflexivity. Qed.

Lemma userInputEntry_not_blank (timestamp source promptText : string) :
  isBlank (userInputEntry timestamp source promptText) = false.
Proof. rewrite isBlank_hasInk. reflexivity. Qed.

(** With logging disabled [appendToLog] returns at once. *)
Lemma appendToLog_disabled (content : string) (w : World) :
  enabled w = false -> appendToLog content w = (Ok tt, w).
Proof.
  intros H. unfold appendToLog, bind, gets. now rewrite H.
Qed.

(** With logging enabled and a file system that does not fail, the entry is
    appended to the log file, which is created with its header first when
    it is missing; nothing else of the logger changes. *)
Lemma appendToLog_healthy (content : string) (w : World) :
  enabled w = true -> faults w = [] -> isBlank content = false ->
  let w' := exec (appendToLog content) w in
  logFile w' = Some (fileBase w ++ content)%string /\
  recentPrompts w' = recentPrompts w /\
  enabled w' = true /\ faults w' = [] /\ captureMode w' = captureMode w /\
  includeContext w' = includeContext w.
Proof.
  intros He Hf Hb. destruct w as [en cm ic rp de lf fs ck td rel bn tr].
  simpl in He, Hf. subst en fs.
  unfold appendToLog, initLogFile, getLogFilePath, appendWithRetry, fileBase.
  monad_unfold. rewrite Hb. cbn [negb appendAttempts].
  destruct de, lf; monad_unfold; cbn [appendAttempts]; monad_unfold;
    repeat split; reflexivity.
Qed.

End Writer.

(** * The two entry points, case by case *)

Section EntryPoints.

Lemma rememberPrompt_exec (promptText : string) (w : World) :
  exec (rememberPrompt promptText) w
  = setRecentPrompts (unshiftBounded (normalized promptText) (recentPrompts w)) w.
Proof. reflexivity. Qed.

Lemma logPrompt_rejected (fileName context promptText : string) (w : World) :
  logPromptAccepts w promptText = false ->
  logPrompt fileName context promptText w = (Ok tt, w).
Proof.
  unfold logPromptAccepts, logPrompt. intros H.
  destruct (isBlank promptText); [reflexivity|].
  unfold isDuplicate, bind, gets.
  destruct (arrayIncludes _ _); [reflexivity|].
  destruct (isBlank (cleanupPrompt promptText) || isSystemMessage _);
    [reflexivity|].
  destruct (String.eqb (captureMode w) "userInputOnly" && looksLikeResponse _);
    [reflexivity | discriminate].
Qed.

Lemma logPrompt_accepted (fileName context promptText : string) (w : World) :
  logPromptAccepts w promptText = true ->
  logPrompt fileName context promptText w
  = appendToLog (logPromptEntry w fileName context promptText)
      (exec (rememberPrompt (cleanupPrompt promptText)) w).
Proof.
  unfold logPromptAccepts, logPrompt. intros H.
  destruct (isBlank promptText); [discriminate|].
  unfold isDuplicate, bind at 1, gets at 1.
  destruct (arrayIncludes _ _); [discriminate|].
  destruct (isBlank (cleanupPrompt promptText) || isSystemMessage _);
    [discriminate|].
  unfold bind at 1, gets at 1.
  destruct (String.eqb (captureMode w) "userInputOnly" && looksLikeResponse _);
    [discriminate|].
  destruct w; reflexivity.
Qed.

Lemma logUserInput_rejected (fileName promptText : string) (w : World) :
  logUserInputAccepts w promptText = false ->
  logUserInput fileName promptText w = (Ok tt, w).
Proof.
  unfold logUserInputAccepts, logUserInput. intros H.
  destruct (isBlank promptText); [reflexivity|].
  unfold isDuplicate, bind, gets.
  destruct (arrayIncludes _ _); [reflexivity | discriminate].
Qed.

Lemma logUserInput_accepted (fileName promptText : string) (w : World) :
  logUserInputAccepts w promptText = true ->
  logUserInput fileName promptText w
  = appendToLog (logUserInputEntry w fileName promptText)
      (setRecentPrompts (unshiftBounded (trim promptText) (recentPrompts w)) w).
Proof.
  unfold logUserInputAccepts, logUserInput. intros H.
  destruct (isBlank promptText); [discriminate|].
  unfold isDuplicate, bind at 1, gets at 1.
  destruct (arrayIncludes _ _); [discriminate|].
  destruct w; reflexivity.
Qed.

End EntryPoints.

(** * What the writer leaves alone

    Everything that is not the file system and the trace survives
    [appendToLog], whatever the fault schedule. *)

Create HintDb keeps.

Section Frame.

Context {X : Type} (f : World -> X).
Hypothesis f_dir : forall b w, f (setDirExists b w) = f w.
Hypothesis f_file : forall c w, f (setLogFile c w) = f w.
Hypothesis f_faults : forall fs w, f (setFaults fs w) = f w.
Hypothesis f_emit : forall e w, f (emit e w) = f w.

Lemma keeps_ret {A} (a : A) : keeps f (ret a).
Proof. intros w; reflexivity. Qed.

Lemma keeps_throw {A} (e : string) : keeps f (@throw A e).
Proof. intros w; reflexivity. Qed.

Lemma keeps_gets {A} (g : World -> A) : keeps f (gets g).
Proof. intros w; reflexivity. Qed.

Lemma keeps_modify (g : World -> World) :
  (forall w, f (g w) = f w) -> keeps f (modify g).
Proof. intros H w; apply H. Qed.

Lemma keeps_bind {A B} (c : M A) (k : A -> M B) :
  keeps f c -> (forall a, keeps f (k a)) -> keeps f (bind c k).
Proof.
  intros Hc Hk w. unfold bind. specialize (Hc w).
  destruct (c w) as [[a|e] w1]; simpl in *; [|exact Hc].
  now rewrite Hk.
Qed.

Lemma keeps_tryCatch {A} (c : M A) (h : string -> M A) :
  keeps f c -> (forall e, keeps f (h e)) -> keeps f (tryCatch c h).
Proof.
  intros Hc Hh w. unfold tryCatch. specialize (Hc w).
  destruct (c w) as [[a|e] w1]; simpl in *; [exact Hc|].
  now rewrite Hh.
Qed.

Lemma keeps_nextFault : keeps f Fs.nextFault.
Proof.
  intros w. unfold Fs.nextFault. destruct (faults w); simpl; [reflexivity|].
  apply f_faults.
Qed.

Hint Resolve keeps_ret keeps_throw keeps_gets keeps_nextFault : keeps.

Ltac keeps_step :=
  first [ apply keeps_bind; [|intros ?]
        | apply keeps_tryCatch; [|intros ?]
        | apply keeps_modify; intros ?; rewrite ?f_emit, ?f_dir, ?f_file;
          reflexivity
        | solve [auto with keeps]
        | match goal with |- keeps _ (if ?b then _ else _) => destruct b end
        | match goal with |- keeps _ (match ?o with Some _ => _ | None => _ end) =>
            destruct o end ].

Lemma keeps_mkdirSync : keeps f Fs.mkdirSync.
Proof. unfold Fs.mkdirSync. repeat keeps_step. Qed.

Lemma keeps_writeFileSync (content : string) : keeps f (Fs.writeFileSync content).
Proof. unfold Fs.writeFileSync. repeat keeps_step. Qed.

Lemma keeps_appendFileSync (content : string) : keeps f (Fs.appendFileSync content).
Proof. unfold Fs.appendFileSync. repeat keeps_step. Qed.

Lemma keeps_readFileSync : keeps f Fs.readFileSync.
Proof. unfold Fs.readFileSync. repeat keeps_step. Qed.

Lemma keeps_existsSync : keeps f Fs.existsSync.
Proof. unfold Fs.existsSync. repeat keeps_step. Qed.

Lemma keeps_sleep (ms : nat) : keeps f (Fs.sleep ms).
Proof. unfold Fs.sleep. repeat keeps_step. Qed.

Hint Resolve keeps_mkdirSync keeps_writeFileSync keeps_appendFileSync
  keeps_readFileSync keeps_existsSync keeps_sleep : keeps.

Lemma keeps_appendAttempts (content : string) (maxRetries delay left : nat) :
  keeps f (appendAttempts content maxRetries delay left).
Proof.
  induction left as [|left IH]; cbn [appendAttempts]; repeat keeps_step.
Qed.

Lemma keeps_initLogFile : keeps f initLogFile.
Proof. unfold initLogFile, getLogFilePath. repeat keeps_step. Qed.

Lemma keeps_appendToLog (content : string) : keeps f (appendToLog content).
Proof.
  unfold appendToLog, appendWithRetry.
  pose proof keeps_initLogFile. pose proof keeps_appendAttempts.
  repeat keeps_step.
Qed.

End Frame.

Lemma appendToLog_recentPrompts (content : string) (w : World) :
  recentPrompts (exec (appendToLog content) w) = recentPrompts w.
Proof. now apply (keeps_appendToLog recentPrompts). Qed.

Lemma appendToLog_enabled (content : string) (w : World) :
  enabled (exec (appendToLog content) w) = enabled w.
Proof. now apply (keeps_appendToLog enabled). Qed.

(** * The recent-prompt history *)

Section History.

Lemma arrayIncludes_In (x : string) (xs : list string) :
  arrayIncludes x xs = true <-> In x xs.
Proof.
  unfold arrayIncludes. rewrite existsb_exists. split.
  - intros [y [Hy E]]. apply String.eqb_eq in E. now subst.
  - intros H. exists x. split; [exact H | apply String.eqb_refl].
Qed.

Lemma arrayIncludes_not_In (x : string) (xs : list string) :
  ~ In x xs -> arrayIncludes x xs = false.
Proof.
  intros H. destruct (arrayIncludes x xs) eqn:E; [|reflexivity].
  apply arrayIncludes_In in E. contradiction.
Qed.

Lemma nodupb_sound (l : list string) : nodupb l = true -> NoDup l.
Proof.
  induction l as [|x l IH]; simpl; intros H; constructor;
    apply andb_prop in H; destruct H as [Hx Hl].
  - intros Hin. apply arrayIncludes_In in Hin. rewrite Hin in Hx. discriminate.
  - auto.
Qed.

Lemma unshiftBounded_firstn (key : string) (history : list string) :
  List.length history <= MAX_RECENT_PROMPTS ->
  unshiftBounded key history = firstn MAX_RECENT_PROMPTS (key :: history).
Proof.
  unfold unshiftBounded, MAX_RECENT_PROMPTS. intros H.
  destruct (20 <? List.length (key :: history)) eqn:E.
  - apply Nat.ltb_lt in E. rewrite removelast_firstn_len.
    f_equal. simpl in *. lia.
  - apply Nat.ltb_ge in E. symmetry. now apply firstn_all2.
Qed.

Lemma unshiftBounded_length (key : string) (history : list string) :
  List.length history <= MAX_RECENT_PROMPTS ->
  List.length (unshiftBounded key history) <= MAX_RECENT_PROMPTS.
Proof.
  intros H. rewrite unshiftBounded_firstn by exact H. apply firstn_le_length.
Qed.

Lemma firstn_app_firstn {A} (n : nat) (a b : list A) :
  firstn n (a ++ firstn n b) = firstn n (a ++ b).
Proof.
  rewrite !firstn_app, firstn_firstn. f_equal. f_equal. lia.
Qed.

Lemma In_firstn {A} (n : nat) (l : list A) (x : A) :
  In x (firstn n l) -> In x l.
Proof.
  intros H. rewrite <- (firstn_skipn n l). apply in_or_app. now left.
Qed.

Lemma keys_disjoint {A B} (key : A -> B) (l1 l2 : list A) (p q : A) :
  NoDup (map key (l1 ++ l2)) -> In p l1 -> In q l2 -> key p <> key q.
Proof.
  induction l1 as [|x l1 IH]; simpl; [tauto|].
  intros H Hp Hq E. inversion H as [|? ? Hx Hrest]; subst.
  destruct Hp as [-> | Hp].
  - apply Hx. rewrite E. apply in_map, in_or_app. now right.
  - now apply (IH Hrest Hp Hq).
Qed.

(** Every call keeps the history within its bound. *)
Lemma step_bounded (c : Command) (w : World) :
  List.length (recentPrompts w) <= MAX_RECENT_PROMPTS ->
  List.length (recentPrompts (step c w)) <= MAX_RECENT_PROMPTS.
Proof.
  intros H. destruct c as [| |f c p|f p|m]; simpl; try exact H.
  - destruct (logPromptAccepts w p) eqn:A; unfold exec.
    + rewrite logPrompt_accepted by exact A. fold (exec (appendToLog
        (logPromptEntry w f c p)) (exec (rememberPrompt (cleanupPrompt p)) w)).
      rewrite appendToLog_recentPrompts, rememberPrompt_exec.
      now apply unshiftBounded_length.
    + now rewrite logPrompt_rejected.
  - destruct (logUserInputAccepts w p) eqn:A; unfold exec.
    + rewrite logUserInput_accepted by exact A.
      fold (exec (appendToLog (logUserInputEntry w f p))
              (setRecentPrompts (unshiftBounded (trim p) (recentPrompts w)) w)).
      rewrite appendToLog_recentPrompts.
      now apply unshiftBounded_length.
    + now rewrite logUserInput_rejected.
  - unfold logChatMessage. destruct (isBlank m); [exact H|].
    unfold exec, isDuplicate, bind at 1, gets at 1.
    destruct (arrayIncludes _ _); [exact H|].
    change (List.length (recentPrompts (exec (appendToLog
              (chatEntry (clock w) m)) (exec (rememberPrompt m) w))) <= 20).
    rewrite appendToLog_recentPrompts, rememberPrompt_exec.
    now apply unshiftBounded_length.
Qed.

Lemma run_bounded (cs : list Command) (w : World) :
  List.length (recentPrompts w) <= MAX_RECENT_PROMPTS ->
  List.length (recentPrompts (run cs w)) <= MAX_RECENT_PROMPTS.
Proof.
  revert w; induction cs as [|c cs IH]; intros w H; [exact H|].
  apply IH, step_bounded, H.
Qed.

(** The history after a series of [rememberPrompt]: the keys, the newest
    first, cut after [MAX_RECENT_PROMPTS]. *)
Lemma rememberAll_history (prompts : list string) (w : World) :
  List.length (recentPrompts w) <= MAX_RECENT_PROMPTS ->
  recentPrompts (rememberAll prompts w)
  = firstn MAX_RECENT_PROMPTS (rev (map normalized prompts) ++ recentPrompts w).
Proof.
  revert w; induction prompts as [|p ps IH]; intros w H.
  - cbn [rememberAll fold_left map rev app]. symmetry. now apply firstn_all2.
  - cbn [rememberAll fold_left]. fold (rememberAll ps (exec (rememberPrompt p) w)).
    rewrite IH; rewrite rememberPrompt_exec; cbn [recentPrompts setRecentPrompts].
    + rewrite unshiftBounded_firstn by exact H.
      rewrite firstn_app_firstn. cbn [map rev]. now rewrite <- app_assoc.
    + now apply unshiftBounded_length.
Qed.

Lemma newest_twenty {A} (l : list A) :
  List.length l = 25 -> firstn 20 (rev l) = rev (skipn 5 l).
Proof.
  intros H. rewrite firstn_rev, H. reflexivity.
Qed.

End History.

Section Feeding.

Lemma normalized_of_stored (p q : string) :
  trim q = normalized p -> normalized q = normalized p.
Proof.
  intros E. unfold normalized at 1. rewrite E. unfold normalized.
  apply toLowerCase_idempotent.
Qed.

Lemma logUserInput_history (fileName p : string) (w : World) :
  logUserInputAccepts w p = true ->
  recentPrompts (step (CmdLogUserInput fileName p) w)
  = unshiftBounded (trim p) (recentPrompts w).
Proof.
  intros A. cbn [step]. unfold exec. rewrite logUserInput_accepted by exact A.
  fold (exec (appendToLog (logUserInputEntry w fileName p))
          (setRecentPrompts (unshiftBounded (trim p) (recentPrompts w)) w)).
  now rewrite appendToLog_recentPrompts.
Qed.

(** Prompts with fresh keys all pass the duplicate test of [logUserInput];
    the history then holds their trimmed texts, the newest first. *)
Lemma feedUserInputs_history (fileName : string) (prompts earlier : list string)
    (w : World) :
  recentPrompts w = firstn MAX_RECENT_PROMPTS (rev (map trim earlier)) ->
  NoDup (map normalized (earlier ++ prompts)) ->
  (forall p, In p prompts -> isBlank p = false) ->
  recentPrompts (feedUserInputs fileName prompts w)
  = firstn MAX_RECENT_PROMPTS (rev (map trim (earlier ++ prompts))).
Proof.
  revert earlier w. induction prompts as [|p ps IH]; intros earlier w Hw Hnd Hnb.
  - now rewrite app_nil_r.
  - unfold feedUserInputs. cbn [map run fold_left].
    fold (run (map (CmdLogUserInput fileName) ps)
            (step (CmdLogUserInput fileName p) w)).
    fold (feedUserInputs fileName ps (step (CmdLogUserInput fileName p) w)).
    assert (A : logUserInputAccepts w p = true).
    { unfold logUserInputAccepts. rewrite (Hnb p) by now left.
      rewrite normalized_trim, arrayIncludes_not_In; [reflexivity|].
      rewrite Hw. intros Hin. apply In_firstn, in_rev, in_map_iff in Hin.
      destruct Hin as [q [Eq Hq]].
      apply (keys_disjoint normalized earlier (p :: ps) q p Hnd Hq);
        [now left | now apply normalized_of_stored]. }
    replace (earlier ++ p :: ps) with ((earlier ++ [p]) ++ ps) in *
      by now rewrite <- app_assoc.
    apply IH.
    + rewrite (logUserInput_history _ _ _ A), Hw.
      rewrite unshiftBounded_firstn by apply firstn_le_length.
      change (trim p :: ?l) with ([trim p] ++ l).
      rewrite firstn_app_firstn, map_app, rev_app_distr. reflexivity.
    + exact Hnd.
    + intros q Hq. apply Hnb. now right.
Qed.

End Feeding.

(** C3: the history never holds more than 20 keys, whatever the host
    calls; [rememberPrompt] puts the key in front and drops the one at the
    back when the bound is passed; after 25 prompts with distinct keys the
    history holds the keys of the 20 newest, the newest first, and none of
    the 5 oldest is reported by [isDuplicate] any more.  The last part holds
    for a series of [rememberPrompt] and for the prompts submitted through
    [logUserInput]. *)
Theorem recentPrompts_bounded_history :
  (forall cs w, List.length (recentPrompts w) <= 20 ->
     List.length (recentPrompts (run cs w)) <= 20) /\
  (forall p w, List.length (recentPrompts w) <= 20 ->
     recentPrompts (exec (rememberPrompt p) w)
     = firstn 20 (normalized p :: recentPrompts w)) /\
  (forall prompts w,
     recentPrompts w = [] -> List.length prompts = 25 ->
     NoDup (map normalized prompts) ->
     let w' := rememberAll prompts w in
     recentPrompts w' = rev (map normalized (skipn 5 prompts)) /\
     forall p, In p (firstn 5 prompts) -> isDuplicate p w' = (Ok false, w')) /\
  (forall fileName prompts w,
     recentPrompts w = [] -> List.length prompts = 25 ->
     NoDup (map normalized prompts) ->
     (forall p, In p prompts -> isBlank p = false) ->
     let w' := feedUserInputs fileName prompts w in
     recentPrompts w' = rev (map trim (skipn 5 prompts)) /\
     forall p, In p (firstn 5 prompts) -> isDuplicate p w' = (Ok false, w')).
Proof.
  split; [exact run_bounded|].
  split.
  { intros p w H. rewrite rememberPrompt_exec. cbn [recentPrompts setRecentPrompts].
    now apply unshiftBounded_firstn. }
  split.
  - intros prompts w Hw Hlen Hnd w'.
    assert (Hh : recentPrompts w' = rev (map normalized (skipn 5 prompts))).
    { unfold w'. rewrite rememberAll_history by (rewrite Hw; simpl; lia).
      rewrite Hw, app_nil_r. unfold MAX_RECENT_PROMPTS.
      rewrite newest_twenty by now rewrite length_map.
      now rewrite skipn_map. }
    split; [exact Hh|]. intros p Hp.
    unfold isDuplicate, gets. rewrite Hh, arrayIncludes_not_In; [reflexivity|].
    intros Hin. apply in_rev, in_map_iff in Hin. destruct Hin as [q [Eq Hq]].
    rewrite <- (firstn_skipn 5 prompts) in Hnd.
    now apply (keys_disjoint normalized _ _ p q Hnd Hp Hq).
  - intros fileName prompts w Hw Hlen Hnd Hnb w'.
    assert (Hh : recentPrompts w' = rev (map trim (skipn 5 prompts))).
    { unfold w'. rewrite (feedUserInputs_history fileName prompts [] w);
        [| now rewrite Hw | exact Hnd | exact Hnb].
      cbn [app]. unfold MAX_RECENT_PROMPTS.
      rewrite newest_twenty by now rewrite length_map.
      now rewrite skipn_map. }
    split; [exact Hh|]. intros p Hp.
    unfold isDuplicate, gets. rewrite Hh, arrayIncludes_not_In; [reflexivity|].
    intros Hin. apply in_rev, in_map_iff in Hin. destruct Hin as [q [Eq Hq]].
    rewrite <- (firstn_skipn 5 prompts) in Hnd.
    apply (keys_disjoint normalized _ _ p q Hnd Hp Hq).
    symmetry. now apply normalized_of_stored.
Qed.

Lemma recentPrompts_bounded_history_witness :
  List.length (recentPrompts (run [CmdLogChatMessage "hello"] freshWorld)) <= 20 /\
  recentPrompts (rememberAll prompts25 freshWorld)
  = rev (map normalized (skipn 5 prompts25)) /\
  isDuplicate "Prompt number 5" (rememberAll prompts25 freshWorld)
  = (Ok false, rememberAll prompts25 freshWorld) /\
  isDuplicate "Prompt number 5" (feedUserInputs "Copilot Chat" prompts25 freshWorld)
  = (Ok false, feedUserInputs "Copilot Chat" prompts25 freshWorld).
Proof.
  destruct recentPrompts_bounded_history as [H1 [_ [H3 H4]]].
  assert (Hnd : NoDup (map normalized prompts25))
    by (apply nodupb_sound; vm_compute; reflexivity).
  destruct (H3 prompts25 freshWorld eq_refl eq_refl Hnd) as [H3a H3b].
  assert (Hnb : forall p, In p prompts25 -> isBlank p = false).
  { intros p Hp. apply in_map_iff in Hp. destruct Hp as [n [<- _]].
    rewrite isBlank_hasInk. reflexivity. }
  destruct (H4 "Copilot Chat" prompts25 freshWorld eq_refl eq_refl Hnd Hnb)
    as [_ H4b].
  split; [apply H1; simpl; lia|].
  split; [exact H3a|].
  split; [apply H3b | apply H4b]; vm_compute; tauto.
Defined.

(** * Accepted prompts reach the file *)

Section Logged.

Lemma unshiftBounded_head (key : string) (history : list string) :
  exists rest, unshiftBounded key history = key :: rest.
Proof.
  unfold unshiftBounded. destruct (MAX_RECENT_PROMPTS <? _) eqn:E.
  - destruct history as [|x history]; [discriminate|].
    exists (removelast (x :: history)). reflexivity.
  - now exists history.
Qed.

Lemma logPrompt_logged (fileName context promptText : string) (w : World) :
  logPromptAccepts w promptText = true ->
  enabled w = true -> faults w = [] ->
  let w' := exec (logPrompt fileName context promptText) w in
  logFile w' = Some (fileBase w ++ logPromptEntry w fileName context promptText)%string /\
  recentPrompts w'
  = unshiftBounded (normalized (cleanupPrompt promptText)) (recentPrompts w).
Proof.
  intros A He Hf w'. unfold w', exec. rewrite logPrompt_accepted by exact A.
  set (w1 := exec (rememberPrompt (cleanupPrompt promptText)) w).
  destruct (appendToLog_healthy
              (logPromptEntry w fileName context promptText) w1)
    as [H1 [H2 _]]; try (destruct w; assumption).
  - apply promptEntry_not_blank.
  - unfold exec in H1, H2. rewrite H1, H2. split; [|reflexivity].
    destruct w; reflexivity.
Qed.

Lemma logUserInput_logged (fileName promptText : string) (w : World) :
  logUserInputAccepts w promptText = true ->
  enabled w = true -> faults w = [] ->
  let w' := exec (logUserInput fileName promptText) w in
  logFile w' = Some (fileBase w ++ logUserInputEntry w fileName promptText)%string /\
  recentPrompts w' = unshiftBounded (trim promptText) (recentPrompts w).
Proof.
  intros A He Hf w'. unfold w', exec. rewrite logUserInput_accepted by exact A.
  set (w1 := setRecentPrompts _ w).
  destruct (appendToLog_healthy (logUserInputEntry w fileName promptText) w1)
    as [H1 [H2 _]]; try (destruct w; assumption).
  - apply userInputEntry_not_blank.
  - unfold exec in H1, H2. rewrite H1, H2. split; [|reflexivity].
    destruct w; reflexivity.
Qed.

End Logged.

(** * Duplicate suppression (C1) *)

(** The documented pair, through [logPrompt]: one entry. *)
Lemma duplicate_pair_logPrompt :
  logFile (run [CmdLogPrompt "a.ts" "" "fix the bug";
                CmdLogPrompt "a.ts" "" "Fix The Bug  "] freshWorld)
  = Some (logHeader "5/5/2025"
          ++ promptEntry "2025-05-05 10:00:00" "a.ts" None "fix the bug")%string.
Proof. vm_compute. reflexivity. Qed.

(** The documented pair, through [logUserInput]: one entry. *)
Lemma duplicate_pair_logUserInput :
  logFile (run [CmdLogUserInput "a.ts" "fix the bug";
                CmdLogUserInput "a.ts" "Fix The Bug  "] freshWorld)
  = Some (logHeader "5/5/2025"
          ++ userInputEntry "2025-05-05 10:00:00" "a.ts" "fix the bug")%string.
Proof. vm_compute. reflexivity. Qed.

(** C1 does not hold on the path of [logUserInput]: it stores the trimmed
    text as it was typed, while [isDuplicate] looks for the text in lower
    case.  A prompt with a capital letter, submitted twice in a row, is
    written twice, and the history holds it twice. *)
Theorem logUserInput_repeats_capitalised_prompt :
  let w := run [CmdLogUserInput "Copilot Chat" "Fix The Bug";
                CmdLogUserInput "Copilot Chat" "Fix The Bug"] freshWorld in
  recentPrompts w = ["Fix The Bug"; "Fix The Bug"] /\
  logFile w
  = Some (logHeader "5/5/2025"
          ++ userInputEntry "2025-05-05 10:00:00" "Copilot Chat" "Fix The Bug"
          ++ userInputEntry "2025-05-05 10:00:00" "Copilot Chat" "Fix The Bug")%string.
Proof. vm_compute. split; reflexivity. Qed.

(** In general: whenever [logUserInput] accepts a prompt whose trimmed text
    is not in lower case, it accepts the same prompt again right after. *)
Lemma logUserInput_accepts_again (fileName promptText : string) (w : World) :
  logUserInputAccepts w promptText = true ->
  toLowerCase (trim promptText) <> trim promptText ->
  logUserInputAccepts (exec (logUserInput fileName promptText) w) promptText
  = true.
Proof.
  intros A N. pose proof (logUserInput_history fileName promptText w A) as H.
  cbn [step] in H. unfold logUserInputAccepts in *. rewrite H.
  apply andb_prop in A. destruct A as [A1 A2]. rewrite A1. cbn [negb andb].
  apply negb_true_iff in A2. apply negb_true_iff.
  apply arrayIncludes_not_In. intros Hin.
  assert (Hsub : In (normalized (trim promptText))
                    (trim promptText :: recentPrompts w)).
  { unfold unshiftBounded in Hin. destruct (MAX_RECENT_PROMPTS <? _).
    - rewrite removelast_firstn_len in Hin. now apply In_firstn in Hin.
    - exact Hin. }
  destruct Hsub as [E | Hh].
  - apply N. unfold normalized in E. rewrite trim_idempotent in E. now symmetry.
  - apply arrayIncludes_In in Hh. congruence.
Qed.

(** The same pair in the other order than documented is written twice as
    well. *)
Lemma logUserInput_misses_lowercase_repeat :
  logFile (run [CmdLogUserInput "Copilot Chat" "Fix The Bug  ";
                CmdLogUserInput "Copilot Chat" "fix the bug"] freshWorld)
  = Some (logHeader "5/5/2025"
          ++ userInputEntry "2025-05-05 10:00:00" "Copilot Chat" "Fix The Bug"
          ++ userInputEntry "2025-05-05 10:00:00" "Copilot Chat" "fix the bug")%string.
Proof. vm_compute. reflexivity. Qed.

(** [logPrompt] looks up the key of the raw text and stores the key of the
    cleaned text: a prompt that the cleanup changes is written each time it
    is submitted. *)
Lemma logPrompt_repeats_cleaned_prompt :
  logFile (run [CmdLogPrompt "a.ts" "" "fix --- the bug";
                CmdLogPrompt "a.ts" "" "fix --- the bug"] freshWorld)
  = Some (logHeader "5/5/2025"
          ++ promptEntry "2025-05-05 10:00:00" "a.ts" None "fix  the bug"
          ++ promptEntry "2025-05-05 10:00:00" "a.ts" None "fix  the bug")%string.
Proof. vm_compute. reflexivity. Qed.

(** * Capture modes (C4) *)

(** C4: the response heuristic is consulted under [userInputOnly] only.
    Under every other capture mode a prompt that is not blank, not a
    duplicate, not blank after cleanup and not a system message is accepted:
    its key is remembered and its entry is handed to [appendToLog], which
    writes it when logging is enabled and the file system works.  Under
    [userInputOnly] the same prompt is dropped exactly when
    [looksLikeResponse] holds of its cleaned text.  The text of the
    scenario is dropped under [userInputOnly] and logged under [all]. *)
Theorem capture_mode_gating :
  (forall w fileName context promptText,
     captureMode w <> "userInputOnly" ->
     isBlank promptText = false ->
     isDuplicate promptText w = (Ok false, w) ->
     isBlank (cleanupPrompt promptText) = false ->
     isSystemMessage (cleanupPrompt promptText) = false ->
     logPrompt fileName context promptText w
     = appendToLog (logPromptEntry w fileName context promptText)
         (exec (rememberPrompt (cleanupPrompt promptText)) w) /\
     (enabled w = true -> faults w = [] ->
      logFile (exec (logPrompt fileName context promptText) w)
      = Some (fileBase w ++ logPromptEntry w fileName context promptText)%string)) /\
  (forall w fileName context promptText,
     captureMode w = "userInputOnly" ->
     isBlank promptText = false ->
     isDuplicate promptText w = (Ok false, w) ->
     isBlank (cleanupPrompt promptText) = false ->
     isSystemMessage (cleanupPrompt promptText) = false ->
     logPrompt fileName context promptText w
     = if looksLikeResponse (cleanupPrompt promptText) then (Ok tt, w)
       else appendToLog (logPromptEntry w fileName context promptText)
              (exec (rememberPrompt (cleanupPrompt promptText)) w)) /\
  exec (logPrompt "a.ts" "" responseText) freshWorld = freshWorld /\
  logFile (exec (logPrompt "a.ts" "" responseText) (setCaptureMode "all" freshWorld))
  = Some (logHeader "5/5/2025"
          ++ promptEntry "2025-05-05 10:00:00" "a.ts" None responseText)%string.
Proof.
  assert (Hdup : forall w p, isDuplicate p w = (Ok false, w) ->
                 arrayIncludes (normalized p) (recentPrompts w) = false).
  { unfold isDuplicate, gets. intros w p H. now injection H. }
  split; [|split; [|split]].
  - intros w f c p Hm Hb Hd Hc Hs. apply Hdup in Hd.
    assert (A : logPromptAccepts w p = true).
    { unfold logPromptAccepts. rewrite Hb, Hd, Hc, Hs.
      apply String.eqb_neq in Hm. now rewrite Hm. }
    split; [now apply logPrompt_accepted|].
    intros He Hf. now apply logPrompt_logged.
  - intros w f c p Hm Hb Hd Hc Hs. apply Hdup in Hd.
    destruct (looksLikeResponse (cleanupPrompt p)) eqn:L.
    + apply logPrompt_rejected. unfold logPromptAccepts.
      rewrite Hb, Hd, Hc, Hs, Hm, L. reflexivity.
    + apply logPrompt_accepted. unfold logPromptAccepts.
      rewrite Hb, Hd, Hc, Hs, Hm, L. reflexivity.
  - vm_compute. reflexivity.
  - vm_compute. reflexivity.
Qed.

Lemma capture_mode_gating_witness :
  logFile (exec (logPrompt "a.ts" "" "The parser is slow.")
                (setCaptureMode "inputAndResponse" freshWorld))
  = Some (logHeader "5/5/2025"
          ++ promptEntry "2025-05-05 10:00:00" "a.ts" None "The parser is slow.")%string /\
  logPrompt "a.ts" "" responseText freshWorld = (Ok tt, freshWorld).
Proof.
  destruct capture_mode_gating as [H1 [H2 _]]. split.
  - apply (H1 (setCaptureMode "inputAndResponse" freshWorld) "a.ts" ""
              "The parser is slow."); try reflexivity.
    vm_compute. discriminate.
  - apply (H2 freshWorld "a.ts" "" responseText); reflexivity.
Defined.

(** * The enabled flag (C5) *)

(** C5, as stated, fails: [logPrompt] does not look at the enabled flag;
    with logging disabled it still remembers the prompt. *)
Lemma disabled_logPrompt_changes_history :
  recentPrompts (exec (logPrompt "a.ts" "" "add a logout form")
                      (setEnabled false freshWorld))
  <> recentPrompts (setEnabled false freshWorld).
Proof. vm_compute. discriminate. Qed.

Lemma setRecentPrompts_same (w : World) : setRecentPrompts (recentPrompts w) w = w.
Proof. now destruct w. Qed.

Lemma appendToLog_disabled_after (content : string) (h : list string) (w : World) :
  enabled w = false ->
  exec (appendToLog content) (setRecentPrompts h w) = setRecentPrompts h w.
Proof.
  intros H. unfold exec. rewrite appendToLog_disabled; [reflexivity|].
  now destruct w.
Qed.

(** C5 (amended): with logging disabled a capture event writes nothing: the
    log file, the directory, the fault schedule, the trace and the
    configuration stay as they are; the one thing a call may change is the
    recent-prompt history.  The flag is read by [appendToLog], at the end
    of the pipeline.  In the scenario "enable, submit, disable, submit" the
    file holds the header and the entry of the first prompt. *)
Theorem disabled_writes_nothing :
  (forall c w, enabled w = false -> c <> CmdEnable ->
     exists history, step c w = setRecentPrompts history w) /\
  logFile (run [CmdEnable; CmdLogPrompt "a.ts" "" "add a login form";
                CmdDisable; CmdLogPrompt "a.ts" "" "add a logout form"]
               (setEnabled false freshWorld))
  = Some (logHeader "5/5/2025"
          ++ promptEntry "2025-05-05 10:00:00" "a.ts" None "add a login form")%string.
Proof.
  split; [|vm_compute; reflexivity].
  intros c w He Hc. destruct c as [| |f c p|f p|m]; cbn [step].
  - congruence.
  - exists (recentPrompts w). destruct w; simpl in He; now subst.
  - destruct (logPromptAccepts w p) eqn:A; unfold exec.
    + rewrite logPrompt_accepted by exact A. eexists.
      rewrite rememberPrompt_exec.
      now apply (appendToLog_disabled_after _ _ w He).
    + rewrite logPrompt_rejected by exact A.
      exists (recentPrompts w). symmetry. apply setRecentPrompts_same.
  - destruct (logUserInputAccepts w p) eqn:A; unfold exec.
    + rewrite logUserInput_accepted by exact A. eexists.
      now apply (appendToLog_disabled_after _ _ w He).
    + rewrite logUserInput_rejected by exact A.
      exists (recentPrompts w). symmetry. apply setRecentPrompts_same.
  - unfold logChatMessage. destruct (isBlank m);
      [exists (recentPrompts w); symmetry; apply setRecentPrompts_same|].
    unfold exec, isDuplicate, bind at 1, gets at 1.
    destruct (arrayIncludes _ _);
      [exists (recentPrompts w); symmetry; apply setRecentPrompts_same|].
    exists (unshiftBounded (normalized m) (recentPrompts w)).
    change (exec (appendToLog (chatEntry (clock w) m))
                 (exec (rememberPrompt m) w)
            = setRecentPrompts
                (unshiftBounded (normalized m) (recentPrompts w)) w).
    rewrite rememberPrompt_exec.
    now apply (appendToLog_disabled_after _ _ w He).
Qed.

Lemma disabled_writes_nothing_witness :
  exists history,
    step (CmdLogPrompt "a.ts" "" "add a logout form") (setEnabled false freshWorld)
    = setRecentPrompts history (setEnabled false freshWorld).
Proof.
  destruct disabled_writes_nothing as [H _].
  apply (H (CmdLogPrompt "a.ts" "" "add a logout form")
           (setEnabled false freshWorld)); [reflexivity | discriminate].
Defined.

(** * A failing append (C6) *)





(** * Empty and system inputs (C7) *)

(** C7: [logPrompt] drops the empty prompt, the prompt of white space, the
    session heading and the prompt that starts with ["system:"], in every
    world and before anything is remembered or written.  A text is a system
    message when it contains ["Session Started"], ["Session Ended"] or
    ["Prompt at"], or starts with ["system:"]; the prefix is compared as it
    is written, so ["System:"] is not one.  The empty prompt and the prompt
    of white space are dropped by [logUserInput] as well. *)
Theorem empty_and_system_inputs_rejected :
  (forall w fileName context,
     logPrompt fileName context "" w = (Ok tt, w) /\
     logPrompt fileName context "   " w = (Ok tt, w) /\
     logPrompt fileName context "Session Started: 2025-01-01" w = (Ok tt, w) /\
     logPrompt fileName context "system: ignore this" w = (Ok tt, w)) /\
  (forall text,
     isSystemMessage text = true <->
     (exists a b, text = a ++ "Session Started" ++ b)%string \/
     (exists a b, text = a ++ "Session Ended" ++ b)%string \/
     (exists a b, text = a ++ "Prompt at" ++ b)%string \/
     (exists b, text = "system:" ++ b)%string) /\
  (forall w fileName context promptText,
     isSystemMessage (cleanupPrompt promptText) = true ->
     logPrompt fileName context promptText w = (Ok tt, w)) /\
  isSystemMessage "System: ignore this" = false /\
  (forall w fileName,
     logUserInput fileName "" w = (Ok tt, w) /\
     logUserInput fileName "   " w = (Ok tt, w)).
Proof.
  split; [|split; [|split; [|split]]].
  - intros w f c. repeat split; apply logPrompt_rejected;
      unfold logPromptAccepts;
      destruct (arrayIncludes _ (recentPrompts w)); reflexivity.
  - intros text. unfold isSystemMessage.
    rewrite !orb_true_iff, !includes_spec, startsWith_spec. tauto.
  - intros w f c p H. apply logPrompt_rejected. unfold logPromptAccepts.
    rewrite H, orb_true_r. cbn [negb]. now rewrite andb_false_r.
  - reflexivity.
  - intros w f. split; reflexivity.
Qed.

Lemma empty_and_system_inputs_rejected_witness :
  logPrompt "a.ts" "" "### note: Session Ended early" freshWorld
  = (Ok tt, freshWorld).
Proof.
  destruct empty_and_system_inputs_rejected as [_ [_ [H _]]].
  apply H. reflexivity.
Defined.

(** * Context truncation (C8) *)

(** C8: a context of more than 500 code units enters the entry as its
    first 500 code units followed by ["... [truncated]"], a shorter one as
    it is; the context block of a logged entry is built from that text.  A
    context of 600 characters is cut to 500. *)
Theorem context_truncated_to_500 (context : string) :
  (500 < String.length context ->
   truncateIfNeeded context 500
   = (substring0 500 context ++ "... [truncated]")%string /\
   String.length (substring0 500 context) = 500 /\
   exists rest, context = (substring0 500 context ++ rest)%string) /\
  (String.length context <= 500 -> truncateIfNeeded context 500 = context) /\
  (forall w fileName promptText,
     logPromptAccepts w promptText = true ->
     contextFor w context (cleanupPrompt promptText) = Some context ->
     enabled w = true -> faults w = [] ->
     logFile (exec (logPrompt fileName context promptText) w)
     = Some (fileBase w
             ++ NL ++ "### User Prompt at " ++ clock w ++ NL ++ NL
             ++ "Source: " ++ asRelativePath w fileName ++ NL ++ NL
             ++ "#### Context" ++ NL ++ NL ++ fence ++ NL
             ++ truncateIfNeeded context 500 ++ NL ++ fence ++ NL ++ NL
             ++ inputBlock (cleanupPrompt promptText)
             ++ "---" ++ NL)%string) /\
  truncateIfNeeded context600 500
  = (replicate 500 "c" ++ "... [truncated]")%string /\
  logFile (exec (logPrompt "a.ts" context600 "fix the bug") contextWorld)
  = Some (logHeader "5/5/2025"
          ++ NL ++ "### User Prompt at 2025-05-05 10:00:00" ++ NL ++ NL
          ++ "Source: a.ts" ++ NL ++ NL
          ++ "#### Context" ++ NL ++ NL ++ fence ++ NL
          ++ replicate 500 "c" ++ "... [truncated]" ++ NL ++ fence ++ NL ++ NL
          ++ inputBlock "fix the bug"
          ++ "---" ++ NL)%string.
Proof.
  split; [|split; [|split; [|split]]].
  - intros H. unfold truncateIfNeeded.
    apply Nat.leb_gt in H as H'. rewrite H'.
    split; [reflexivity|]. split; [apply length_substring0; lia|].
    exists (drop 500 context). symmetry. apply substring0_drop.
  - intros H. unfold truncateIfNeeded. apply Nat.leb_le in H. now rewrite H.
  - intros w f p A C He Hf.
    destruct (logPrompt_logged f context p w A He Hf) as [H _].
    rewrite H. unfold logPromptEntry, promptEntry, contextBlock. rewrite C.
    repeat (rewrite ?append_assoc; cbn [append]). reflexivity.
  - vm_compute. reflexivity.
  - vm_compute. reflexivity.
Qed.

Lemma context_truncated_to_500_witness :
  truncateIfNeeded context600 500
  = (substring0 500 context600 ++ "... [truncated]")%string /\
  truncateIfNeeded "short context" 500 = "short context".
Proof.
  split.
  - destruct (context_truncated_to_500 context600) as [H _].
    destruct H as [H _]; [vm_compute; lia | exact H].
  - destruct (context_truncated_to_500 "short context") as [_ [H _]].
    apply H. vm_compute. lia.
Defined.

(** * Retries and the fallback (C9) *)

(** C9: [appendToLog] calls [appendWithRetry] with 3 retries and a delay of
    100 ms.  The append is declared failed only after four failed calls of
    [appendFileSync] with a pause of 100 ms between them, and a call that
    works appends the content.  After a failed append the fallback reads the
    file and writes its content followed by the entry: when the read and the
    write work, the file ends with the entry. *)
Theorem append_retry_policy (content : string) (w : World) :
  (forall e w',
     appendWithRetry content 3 100 w = (Throw e, w') ->
     trace w' = trace w ++ failedAppendEvents /\
     logFile w' = logFile w /\
     exists rest, faults w = [true; true; true; true] ++ rest) /\
  (forall w',
     appendWithRetry content 3 100 w = (Ok tt, w') ->
     logFile w'
     = Some (match logFile w with Some c => c | None => EmptyString end
             ++ content)%string) /\
  (forall old rest,
     enabled w = true -> dirExists w = true -> logFile w = Some old ->
     isBlank content = false ->
     faults w = fallbackFaults rest ->
     logFile (exec (appendToLog content) w) = Some (old ++ content)%string /\
     trace (exec (appendToLog content) w)
     = trace w ++ failedAppendEvents ++ [EvRead true; EvWrite true]).
Proof.
  destruct w as [en cm ic rp de lf fs ck td rel bn tr].
  unfold appendWithRetry, failedAppendEvents.
  split; [|split].
  - intros e w'. cbn [appendAttempts]. monad_unfold.
    destruct fs as [|[] [|[] [|[] [|[] rest]]]]; monad_unfold;
      intros H; try discriminate.
    injection H as _ <-. monad_unfold. rewrite <- !app_assoc.
    repeat split. now exists rest.
  - intros w'. cbn [appendAttempts]. monad_unfold.
    destruct fs as [|[] [|[] [|[] [|[] rest]]]]; monad_unfold;
      intros H; try discriminate; injection H as <-; reflexivity.
  - intros old rest He Hd Hl Hb Hf. simpl in He, Hd, Hl, Hf.
    subst en de lf fs.
    unfold appendToLog, initLogFile, getLogFilePath, appendWithRetry,
      fallbackFaults.
    monad_unfold. rewrite Hb. cbn [negb appendAttempts app]. monad_unfold.
    rewrite <- !app_assoc. split; reflexivity.
Qed.

Lemma append_retry_policy_witness :
  let w := setFaults (fallbackFaults [])
             (setLogFile (Some "# log") (setDirExists true freshWorld)) in
  logFile (exec (appendToLog "entry") w) = Some "# logentry" /\
  trace (exec (appendToLog "entry") w)
  = failedAppendEvents ++ [EvRead true; EvWrite true].
Proof.
  intros w.
  destruct (append_retry_policy "entry" w) as [_ [_ H]].
  apply (H "# log" []); reflexivity.
Defined.

(** * The minimal path (C10) *)



(** * Further properties of the writer *)

Section WriterTotal.

(** No failure of the file system leaves [appendToLog]: its outer handler
    shows the error and returns. *)
Lemma appendToLog_Ok (content : string) (w : World) :
  fst (appendToLog content w) = Ok tt.
Proof.
  unfold appendToLog, bind at 1, gets at 1.
  destruct (negb (enabled w)); [reflexivity|].
  destruct (isBlank content); [reflexivity|].
  unfold tryCatch at 1.
  match goal with |- fst (match ?b w with _ => _ end) = _ => destruct (b w) as [[[]|e] w1] end;
    reflexivity.
Qed.

Lemma logPrompt_Ok (fileName context promptText : string) (w : World) :
  fst (logPrompt fileName context promptText w) = Ok tt.
Proof.
  destruct (logPromptAccepts w promptText) eqn:A.
  - rewrite logPrompt_accepted by exact A. apply appendToLog_Ok.
  - now rewrite logPrompt_rejected.
Qed.

Lemma logUserInput_Ok (fileName promptText : string) (w : World) :
  fst (logUserInput fileName promptText w) = Ok tt.
Proof.
  destruct (logUserInputAccepts w promptText) eqn:A.
  - rewrite logUserInput_accepted by exact A. apply appendToLog_Ok.
  - now rewrite logUserInput_rejected.
Qed.

Lemma logChatMessage_cases (message : string) (w : World) :
  logChatMessage message w = (Ok tt, w) \/
  logChatMessage message w
  = appendToLog (chatEntry (clock w) message) (exec (rememberPrompt message) w).
Proof.
  unfold logChatMessage. destruct (isBlank message); [now left|].
  unfold isDuplicate, bind, gets.
  destruct (arrayIncludes (normalized message) (recentPrompts w));
    [left; reflexivity | right; destruct w; reflexivity].
Qed.

Lemma logChatMessage_Ok (message : string) (w : World) :
  fst (logChatMessage message w) = Ok tt.
Proof.
  destruct (logChatMessage_cases message w) as [-> | ->];
    [reflexivity | apply appendToLog_Ok].
Qed.

Lemma onSendRequest_cases (prompt : string) (w : World) :
  onSendRequest prompt w = (Ok tt, w) \/
  (enabled w = true /\
   onSendRequest prompt w = logPrompt "Copilot Chat" "User Input" prompt w).
Proof.
  unfold onSendRequest, bind, gets. destruct (enabled w); [|now left].
  destruct (truthy prompt); [now right | now left].
Qed.

Lemma onExecuteCommand_cases (command : string) (arg0 : option string) (w : World) :
  onExecuteCommand command arg0 w = (Ok tt, w) \/
  (enabled w = true /\
   exists userInput, arg0 = Some userInput /\
     startsWith "system:" userInput = false /\
     onExecuteCommand command arg0 w
     = logPrompt "Copilot Chat" "User Input" (trim userInput) w).
Proof.
  unfold onExecuteCommand, bind, gets. destruct (enabled w); [|now left].
  destruct (_ || _); [|now left]. destruct arg0 as [u|]; [|now left].
  destruct (truthy u); [|now left].
  destruct (startsWith "system:" u) eqn:S; [now left|].
  destruct (truthy (trim u)); [|now left].
  right. split; [reflexivity|]. now exists u.
Qed.

End WriterTotal.

(** X1: every entry point of the logger and both command handlers return
    normally, whatever the file system does: a failing directory, header,
    append, read or write never reaches the caller as an exception. *)
Theorem logger_never_throws :
  (forall content, returns (appendToLog content)) /\
  (forall fileName context promptText,
     returns (logPrompt fileName context promptText)) /\
  (forall fileName promptText, returns (logUserInput fileName promptText)) /\
  (forall message, returns (logChatMessage message)) /\
  returns logSessionStart /\ returns logSessionEnd /\
  (forall prompt, returns (onSendRequest prompt)) /\
  (forall command arg0, returns (onExecuteCommand command arg0)).
Proof.
  repeat split; intros; intros w; exists tt.
  - apply appendToLog_Ok.
  - apply logPrompt_Ok.
  - apply logUserInput_Ok.
  - apply logChatMessage_Ok.
  - apply (appendToLog_Ok (sessionStartContent (clock w)) w).
  - apply (appendToLog_Ok (sessionEndContent (clock w)) w).
  - destruct (onSendRequest_cases prompt w) as [-> | [_ ->]];
      [reflexivity | apply logPrompt_Ok].
  - destruct (onExecuteCommand_cases command arg0 w) as [-> | [_ [u [_ [_ ->]]]]];
      [reflexivity | apply logPrompt_Ok].
Qed.

(** * The log file only grows *)



Section AppendOnly.


End AppendOnly.

Section CallShape.




End CallShape.



(** * [appendWithRetry] for any number of retries *)

Section Retry.

Variables (content : string) (maxRetries delay : nat).

Lemma appendAttempts_succeeds (k : nat) :
  forall left w rest,
    k <= left ->
    faults w = repeat true k ++ rest -> hd false rest = false ->
    let r := appendAttempts content maxRetries delay left w in
    fst r = Ok tt /\
    logFile (snd r) = Some (fileText w ++ content)%string /\
    faults (snd r) = tl rest /\
    trace (snd r) = trace w ++ retryEvents delay k ++ [EvAppend true].
Proof.
  induction k as [|k IH]; intros left w rest Hk Hf Hh.
  - destruct w as [en cm ic rp de lf fs ck td rel bn tr].
    cbn [repeat app faults] in Hf. subst fs.
    destruct left; cbn [appendAttempts]; monad_unfold;
      destruct rest as [|[] rest]; try discriminate; monad_unfold;
      unfold fileText; cbn; repeat split; reflexivity.
  - destruct left as [|left]; [lia|].
    destruct w as [en cm ic rp de lf fs ck td rel bn tr].
    cbn [repeat app faults] in Hf. subst fs.
    cbn [appendAttempts]. monad_unfold.
    match goal with
    | |- context [appendAttempts _ _ _ left ?w1] =>
        destruct (IH left w1 rest) as [H1 [H2 [H3 H4]]];
          [lia | reflexivity | exact Hh |]
    end.
    cbv zeta in H1, H2, H3, H4.
    destruct (appendAttempts _ _ _ left _) as [[[]|e] w2]; [|discriminate].
    cbn [fst snd] in *. split; [reflexivity|].
    split; [exact H2|]. split; [exact H3|].
    etransitivity; [exact H4|].
    cbn [trace]. unfold retryEvents. cbn [repeat concat app].
    now rewrite <- !app_assoc.
Qed.

Lemma appendAttempts_gives_up :
  forall left w rest,
    faults w = repeat true (S left) ++ rest ->
    let r := appendAttempts content maxRetries delay left w in
    (exists e, fst r = Throw e) /\
    logFile (snd r) = logFile w /\
    faults (snd r) = rest /\
    trace (snd r) = trace w ++ retryEvents delay left ++ [EvAppend false].
Proof.
  induction left as [|left IH]; intros w rest Hf;
    destruct w as [en cm ic rp de lf fs ck td rel bn tr];
    cbn [repeat app faults] in Hf; subst fs; cbn [appendAttempts]; monad_unfold.
  - repeat split. now eexists.
  - match goal with
    | |- context [appendAttempts _ _ _ left ?w1] =>
        destruct (IH w1 rest) as [[e H1] [H2 [H3 H4]]]; [reflexivity|]
    end.
    cbv zeta in H1, H2, H3, H4.
    destruct (appendAttempts _ _ _ left _) as [[[]|e'] w2]; [discriminate|].
    cbn [fst snd] in *. split; [now eexists|].
    split; [exact H2|]. split; [exact H3|].
    etransitivity; [exact H4|].
    cbn [trace]. unfold retryEvents. cbn [repeat concat app].
    now rewrite <- !app_assoc.
Qed.

End Retry.

(** X3: [appendWithRetry] with any number of retries and any delay.  When
    the append works after [k] failures, with [k] at most [maxRetries], the
    method returns, the content stands once at the end of the file, and
    there have been [k] pauses of [delay].  When [maxRetries + 1] appends
    fail, the method throws after [maxRetries] pauses and the file is as it
    was. *)
Theorem appendWithRetry_any_retries
    (content : string) (maxRetries delay k : nat) (rest : list bool) (w : World) :
  (k <= maxRetries ->
   faults w = repeat true k ++ rest -> hd false rest = false ->
   let r := appendWithRetry content maxRetries delay w in
   fst r = Ok tt /\
   logFile (snd r) = Some (fileText w ++ content)%string /\
   trace (snd r) = trace w ++ retryEvents delay k ++ [EvAppend true]) /\
  (faults w = repeat true (S maxRetries) ++ rest ->
   let r := appendWithRetry content maxRetries delay w in
   (exists e, fst r = Throw e) /\
   logFile (snd r) = logFile w /\
   trace (snd r) = trace w ++ retryEvents delay maxRetries ++ [EvAppend false]).
Proof.
  unfold appendWithRetry. split.
  - intros Hk Hf Hh.
    destruct (appendAttempts_succeeds content maxRetries delay k
                maxRetries w rest Hk Hf Hh) as [H1 [H2 [_ H4]]].
    now repeat split.
  - intros Hf.
    destruct (appendAttempts_gives_up content maxRetries delay
                maxRetries w rest Hf) as [H1 [H2 [_ H4]]].
    now repeat split.
Qed.

Lemma appendWithRetry_any_retries_witness :
  let w := setFaults [true; true; false; true]
             (setLogFile (Some "# log") freshWorld) in
  logFile (snd (appendWithRetry "entry" 5 250 w)) = Some "# logentry" /\
  (exists e, fst (appendWithRetry "entry" 1 250 w) = Throw e).
Proof.
  intros w. split.
  - destruct (appendWithRetry_any_retries "entry" 5 250 2 [false; true] w)
      as [H _].
    destruct H as [_ [H _]]; [lia | reflexivity | reflexivity | exact H].
  - destruct (appendWithRetry_any_retries "entry" 1 250 0 [false; true] w)
      as [_ H].
    destruct H as [H _]; [reflexivity | exact H].
Defined.

(** * Keys in the history *)

Section Keys.

(** A text whose key is in the history is dropped at each of the three
    entry points, and nothing changes. *)
Lemma known_key_dropped (fileName context q : string) (w : World) :
  arrayIncludes (normalized q) (recentPrompts w) = true ->
  logPrompt fileName context q w = (Ok tt, w) /\
  logUserInput fileName q w = (Ok tt, w) /\
  logChatMessage q w = (Ok tt, w).
Proof.
  intros H. split; [|split].
  - apply logPrompt_rejected. unfold logPromptAccepts. rewrite H.
    cbn [negb]. now rewrite andb_false_r.
  - apply logUserInput_rejected. unfold logUserInputAccepts.
    rewrite normalized_trim, H. cbn [negb]. now rewrite andb_false_r.
  - unfold logChatMessage. destruct (isBlank q); [reflexivity|].
    unfold isDuplicate, bind, gets. now rewrite H.
Qed.

Lemma In_firstn_app {A} (n : nat) (a t : list A) (k : A) :
  List.length a < n -> In k (firstn n (a ++ k :: t)).
Proof.
  intros H. rewrite firstn_app. apply in_or_app. right.
  destruct (n - List.length a) as [|m] eqn:E; [lia|]. now left.
Qed.

Lemma firstn_app_long {A} (n : nat) (a b : list A) :
  n <= List.length a -> firstn n (a ++ b) = firstn n a.
Proof.
  intros H. rewrite firstn_app. replace (n - List.length a) with 0 by lia.
  cbn [firstn]. apply app_nil_r.
Qed.

Lemma rememberAll_after (p : string) (later : list string) (w : World) :
  List.length (recentPrompts w) <= MAX_RECENT_PROMPTS ->
  recentPrompts (rememberAll later (exec (rememberPrompt p) w))
  = firstn MAX_RECENT_PROMPTS
      (rev (map normalized later) ++ normalized p :: recentPrompts w).
Proof.
  intros H. rewrite rememberAll_history; rewrite rememberPrompt_exec;
    cbn [recentPrompts setRecentPrompts].
  - rewrite unshiftBounded_firstn by exact H. apply firstn_app_firstn.
  - now apply unshiftBounded_length.
Qed.

End Keys.

(** X4: how long a remembered prompt stays known.  After [rememberPrompt p],
    every text with the same key (the same text up to case and outer white
    space) is reported by [isDuplicate] and dropped by [logPrompt],
    [logUserInput] and [logChatMessage], as long as fewer than 20 prompts
    have been remembered since; once 20 prompts with other keys have been
    remembered, it is no longer reported. *)
Theorem remembered_key_lifetime
    (p q : string) (later : list string) (w : World) :
  List.length (recentPrompts w) <= 20 ->
  normalized q = normalized p ->
  let w' := rememberAll later (exec (rememberPrompt p) w) in
  (List.length later < 20 ->
   isDuplicate q w' = (Ok true, w') /\
   forall fileName context,
     logPrompt fileName context q w' = (Ok tt, w') /\
     logUserInput fileName q w' = (Ok tt, w') /\
     logChatMessage q w' = (Ok tt, w')) /\
  (20 <= List.length later -> ~ In (normalized p) (map normalized later) ->
   isDuplicate q w' = (Ok false, w')).
Proof.
  intros Hw Hq w'.
  assert (Hh : recentPrompts w'
               = firstn 20 (rev (map normalized later)
                            ++ normalized p :: recentPrompts w))
    by now apply rememberAll_after.
  split.
  - intros Hl.
    assert (Hin : arrayIncludes (normalized q) (recentPrompts w') = true).
    { apply arrayIncludes_In. rewrite Hh, Hq. apply In_firstn_app.
      now rewrite length_rev, length_map. }
    split; [unfold isDuplicate, gets; now rewrite Hin|].
    intros f c. now apply known_key_dropped.
  - intros Hl Hn. unfold isDuplicate, gets.
    rewrite arrayIncludes_not_In; [reflexivity|].
    rewrite Hh, Hq, firstn_app_long by now rewrite length_rev, length_map.
    intros Hin. apply In_firstn, in_rev in Hin. contradiction.
Qed.

Lemma remembered_key_lifetime_witness :
  isDuplicate "  FIX the Bug "
    (rememberAll ["one"; "two"] (exec (rememberPrompt "Fix The Bug") freshWorld))
  = (Ok true,
     rememberAll ["one"; "two"] (exec (rememberPrompt "Fix The Bug") freshWorld)) /\
  isDuplicate "Prompt number 0"
    (rememberAll prompts25 (exec (rememberPrompt "prompt number 0") freshWorld))
  = (Ok false,
     rememberAll prompts25 (exec (rememberPrompt "prompt number 0") freshWorld)).
Proof.
  split.
  - destruct (remembered_key_lifetime "Fix The Bug" "  FIX the Bug "
                ["one"; "two"] freshWorld) as [H _];
      [simpl; lia | reflexivity |].
    apply H. simpl. lia.
  - destruct (remembered_key_lifetime "prompt number 0" "Prompt number 0"
                prompts25 freshWorld) as [_ H];
      [simpl; lia | reflexivity |].
    apply H; [vm_compute; lia|].
    intros Hin. apply arrayIncludes_In in Hin. vm_compute in Hin. discriminate.
Defined.

(** * [logChatMessage] *)



Lemma key_at_head (key : string) (history : list string) :
  arrayIncludes key (unshiftBounded key history) = true.
Proof.
  destruct (unshiftBounded_head key history) as [t ->].
  unfold arrayIncludes. cbn [existsb]. now rewrite String.eqb_refl.
Qed.



(** * The shape and the size of a cleaned prompt *)

Section CleanShape.

Lemma dropBlankLines_shape (s : string) :
  dropBlankLines s = EmptyString \/
  forallb nonBlank (splitLines (dropBlankLines s)) = true.
Proof.
  unfold dropBlankLines.
  set (ls := filter nonBlank (splitLines s)).
  assert (Hink : forallb hasInk ls = true).
  { rewrite (forallb_pointwise hasInk nonBlank).
    - apply forallb_filter_self.
    - intros; symmetry; apply nonBlank_hasInk. }
  assert (Hlf : forallb noLF ls = true)
    by apply forallb_filter, splitLines_noLF.
  destruct ls as [|l ls'] eqn:E; [now left|]. right.
  rewrite (forallb_pointwise nonBlank hasInk) by apply nonBlank_hasInk.
  apply inkLines_trim.
  rewrite splitLines_joinLines; [exact Hink | discriminate | exact Hlf].
Qed.

Lemma length_trimStart (s : string) :
  String.length (trimStart s) <= String.length s.
Proof.
  induction s as [|c s IH]; simpl; [lia|].
  destruct (isWhiteSpace c); simpl; lia.
Qed.

Lemma length_trimEnd (s : string) :
  String.length (trimEnd s) <= String.length s.
Proof.
  induction s as [|c s IH]; simpl; [lia|].
  destruct (trimEnd s); [destruct (isWhiteSpace c)|]; simpl in *; lia.
Qed.

Lemma length_trim (s : string) : String.length (trim s) <= String.length s.
Proof.
  unfold trim. pose proof (length_trimEnd (trimStart s)).
  pose proof (length_trimStart s). lia.
Qed.

Lemma length_joinLines_cons (l : string) (ls : list string) :
  String.length (joinLines (l :: ls))
  = String.length l
    + match ls with [] => 0 | _ => 1 + String.length (joinLines ls) end.
Proof.
  destruct ls as [|l' ls]; [simpl; lia|].
  rewrite joinLines_cons by discriminate. rewrite length_append. reflexivity.
Qed.

Lemma length_joinLines_filter (p : string -> bool) (ls : list string) :
  String.length (joinLines (filter p ls)) <= String.length (joinLines ls).
Proof.
  induction ls as [|l ls IH]; [simpl; lia|].
  rewrite (length_joinLines_cons l ls). cbn [filter].
  destruct (p l).
  - rewrite length_joinLines_cons.
    destruct ls as [|l' ls]; [simpl; lia|].
    destruct (filter p (l' :: ls)); [lia|]. lia.
  - destruct ls as [|l' ls]; [simpl; lia|]. lia.
Qed.

Lemma length_dropBlankLines (s : string) :
  String.length (dropBlankLines s) <= String.length s.
Proof.
  unfold dropBlankLines.
  pose proof (length_trim (joinLines (filter nonBlank (splitLines s)))).
  pose proof (length_joinLines_filter nonBlank (splitLines s)) as J.
  rewrite joinLines_splitLines in J. lia.
Qed.

Lemma length_replaceFrom (m : Regex.matcher) :
  nonExpanding m ->
  forall fuel s, String.length (Regex.replaceFrom m fuel s) <= String.length s.
Proof.
  intros Hm. induction fuel as [|fuel IH]; intros s; [simpl; lia|].
  cbn [Regex.replaceFrom]. destruct (m s) as [[r rest]|] eqn:E.
  - apply Hm in E. rewrite length_append. specialize (IH rest). lia.
  - destruct s as [|c s]; [simpl; lia|]. specialize (IH s). simpl. lia.
Qed.

Lemma lazyToFence_sizes (s inner rest : string) :
  Regex.lazyToFence s = Some (inner, rest) ->
  String.length inner + String.length rest <= String.length s.
Proof.
  revert inner; induction s as [|c s IH]; intros inner.
  - cbn. discriminate.
  - cbn [Regex.lazyToFence]. destruct (startsWith "```" (String c s)).
    + intros H. injection H as <- <-.
      pose proof (length_drop 3 (String c s)) as D. cbn [drop] in *.
      cbn [String.length] in *. lia.
    + destruct (Regex.lazyToFence s) as [[i r]|]; [|discriminate].
      intros H. injection H as <- <-. specialize (IH i eq_refl). simpl. lia.
Qed.

Lemma consumes_nonExpanding (m : Regex.matcher) :
  consumes m ->
  (forall s r rest, m s = Some (r, rest) -> r = EmptyString) ->
  nonExpanding m.
Proof.
  intros Hc He s r rest H. rewrite (He _ _ _ H). apply Hc in H. simpl. lia.
Qed.

Lemma nonExpanding_codeFence : nonExpanding Regex.codeFence.
Proof.
  intros s r rest. unfold Regex.codeFence.
  destruct (startsWith "```" s) eqn:E; [|discriminate].
  pose proof (length_drop 3 s) as D. remember (drop 3 s) as d.
  pose proof (length_skipWhile isWordChar d) as Hw.
  destruct (Regex.skipWhile isWordChar d) as [|c body]; [discriminate|].
  destruct (Ascii.eqb c LF); [|discriminate].
  intros H. apply lazyToFence_sizes in H. cbn [String.length] in Hw. lia.
Qed.

Lemma patterns_nonExpanding :
  Forall nonExpanding (Regex.codeFence :: patternsToRemove).
Proof.
  pose proof patterns_consume as P. unfold patternsToRemove in *.
  apply Forall_cons; [apply nonExpanding_codeFence|].
  apply Forall_inv_tail in P.
  repeat match goal with
  | H : Forall consumes (_ :: _) |- _ =>
      let H1 := fresh in let H2 := fresh in
      pose proof (Forall_inv H) as H1; pose proof (Forall_inv_tail H) as H2;
      clear H; apply Forall_cons;
        [apply consumes_nonExpanding; [exact H1|]|]
  end; try apply Forall_nil;
    intros s r rest;
    unfold Regex.toEndOfLine, Regex.promptHeading, Regex.dashRun, Regex.timestamp;
    repeat match goal with
    | |- (if ?b then _ else _) = _ -> _ => destruct b
    | |- match ?o with Some _ => _ | None => _ end = _ -> _ => destruct o
    end; intros Hmatch; try discriminate; now injection Hmatch.
Qed.

Lemma length_stripArtifacts (s : string) :
  String.length (stripArtifacts s) <= String.length s.
Proof.
  unfold stripArtifacts. pose proof patterns_nonExpanding as P.
  pose proof (Forall_inv P) as Pf. apply Forall_inv_tail in P.
  pose proof (length_replaceFrom _ Pf (String.length s) s) as H0.
  fold (Regex.replaceAll Regex.codeFence s) in H0.
  revert H0. generalize (Regex.replaceAll Regex.codeFence s).
  induction P as [|m ms Hm _ IH]; intros t Ht; cbn [fold_left]; [exact Ht|].
  apply IH. unfold Regex.replaceAll.
  pose proof (length_replaceFrom m Hm (String.length t) t). lia.
Qed.

End CleanShape.

(** X6: what [cleanupPrompt] returns, for every input: a text without
    white space at its ends and without a blank line (or the empty text),
    and never a longer text than it was given.  So the test "blank after
    cleanup" of [logPrompt] means "empty after cleanup". *)
Theorem cleanupPrompt_result_shape (s : string) :
  trim (cleanupPrompt s) = cleanupPrompt s /\
  (cleanupPrompt s = EmptyString \/
   forallb nonBlank (splitLines (cleanupPrompt s)) = true) /\
  String.length (cleanupPrompt s) <= String.length s /\
  (isBlank (cleanupPrompt s) = true <-> cleanupPrompt s = EmptyString).
Proof.
  assert (T : trim (cleanupPrompt s) = cleanupPrompt s).
  { unfold cleanupPrompt. destruct (negb (truthy s)); [reflexivity|].
    unfold dropBlankLines. apply trim_idempotent. }
  split; [exact T|]. split; [|split].
  - unfold cleanupPrompt. destruct (negb (truthy s)); [now left|].
    apply dropBlankLines_shape.
  - unfold cleanupPrompt. destruct (negb (truthy s)); [simpl; lia|].
    pose proof (length_dropBlankLines (stripArtifacts s)).
    pose proof (length_stripArtifacts s). lia.
  - rewrite isBlank_hasInk, negb_true_iff, <- trim_empty, T. tauto.
Qed.

Lemma cleanupPrompt_result_shape_witness :
  cleanupPrompt "Source: a.ts" = EmptyString.
Proof.
  destruct (cleanupPrompt_result_shape "Source: a.ts") as [_ [_ [_ H]]].
  apply H. reflexivity.
Defined.

(** * Texts that start with [system:] *)

Section SystemPrefix.

Lemma patterns_start_at_heads :
  Forall (startsOnlyAt patternHead) (Regex.codeFence :: patternsToRemove).
Proof.
  unfold patternsToRemove. repeat (apply Forall_cons || apply Forall_nil);
    intros c s H;
    destruct c as [[] [] [] [] [] [] [] []]; try discriminate H; reflexivity.
Qed.

Lemma replaceFrom_keeps_head (m : Regex.matcher) (c : ascii) (fuel : nat) (s : string) :
  startsOnlyAt patternHead m -> patternHead c = false ->
  Regex.replaceFrom m (S fuel) (String c s)
  = String c (Regex.replaceFrom m fuel s).
Proof.
  intros Hm Hc. cbn [Regex.replaceFrom]. now rewrite (Hm c s Hc).
Qed.

Lemma replaceAll_keeps_system (m : Regex.matcher) (rest : string) :
  startsOnlyAt patternHead m ->
  exists rest', Regex.replaceAll m ("system:" ++ rest) = ("system:" ++ rest')%string.
Proof.
  intros Hm. unfold Regex.replaceAll. cbn [append String.length].
  rewrite !(replaceFrom_keeps_head m) by (exact Hm || reflexivity).
  now eexists.
Qed.

Lemma stripArtifacts_keeps_system (rest : string) :
  exists rest', stripArtifacts ("system:" ++ rest) = ("system:" ++ rest')%string.
Proof.
  unfold stripArtifacts. pose proof patterns_start_at_heads as P.
  destruct (replaceAll_keeps_system Regex.codeFence rest (Forall_inv P))
    as [r0 ->].
  apply Forall_inv_tail in P. revert r0.
  induction P as [|m ms Hm _ IH]; intros r0; cbn [fold_left]; [now exists r0|].
  destruct (replaceAll_keeps_system m r0 Hm) as [r1 ->]. apply IH.
Qed.

Lemma trimEnd_ink_head (c : ascii) (s : string) :
  isWhiteSpace c = false -> trimEnd (String c s) = String c (trimEnd s).
Proof.
  intros H. cbn [trimEnd]. destruct (trimEnd s); [now rewrite H | reflexivity].
Qed.

Lemma dropBlankLines_keeps_system (rest : string) :
  exists rest', dropBlankLines ("system:" ++ rest) = ("system:" ++ rest')%string.
Proof.
  unfold dropBlankLines.
  destruct (splitLines_cons rest) as [l [ls E]].
  assert (S : splitLines ("system:" ++ rest) = ("system:" ++ l)%string :: ls).
  { cbn [append splitLines].
    repeat match goal with |- context [Ascii.eqb ?a LF] =>
      change (Ascii.eqb a LF) with false end.
    cbv iota. now rewrite E. }
  rewrite S. cbn [filter].
  replace (nonBlank ("system:" ++ l)) with true
    by (rewrite nonBlank_hasInk; reflexivity).
  assert (J : exists x, joinLines (("system:" ++ l)%string :: filter nonBlank ls)
                        = ("system:" ++ x)%string).
  { destruct (filter nonBlank ls) as [|l' ls'].
    - now exists l.
    - rewrite joinLines_cons by discriminate. rewrite append_assoc.
      now eexists. }
  destruct J as [x ->]. unfold trim. cbn [append trimStart].
  change (isWhiteSpace "s") with false. cbv iota.
  rewrite !trimEnd_ink_head by reflexivity. now eexists.
Qed.

Lemma cleanupPrompt_keeps_system (rest : string) :
  startsWith "system:" (cleanupPrompt ("system:" ++ rest)) = true.
Proof.
  unfold cleanupPrompt. cbn [append truthy negb].
  change (String "s" (String "y" (String "s" (String "t" (String "e"
            (String "m" (String ":" rest)))))))
    with ("system:" ++ rest)%string.
  destruct (stripArtifacts_keeps_system rest) as [r1 ->].
  destruct (dropBlankLines_keeps_system r1) as [r2 ->].
  reflexivity.
Qed.

End SystemPrefix.

(** X7: [logPrompt] drops every text that starts with ["system:"],
    whatever follows: no pattern of the cleanup can match inside or across
    that prefix, so the cleaned text still starts with it and is a system
    message.  The command proxy tests the prefix before it trims; a text
    with white space before ["system:"] passes that test, is trimmed, and
    is dropped by [logPrompt] all the same. *)
Theorem system_prefix_always_dropped
    (fileName context rest command userInput : string) (w : World) :
  logPrompt fileName context ("system:" ++ rest) w = (Ok tt, w) /\
  (startsWith "system:" (trim userInput) = true ->
   onExecuteCommand command (Some userInput) w = (Ok tt, w)).
Proof.
  assert (L : forall f c r, logPrompt f c ("system:" ++ r) w = (Ok tt, w)).
  { intros f c r. apply logPrompt_rejected. unfold logPromptAccepts.
    unfold isSystemMessage at 1. rewrite cleanupPrompt_keeps_system.
    rewrite !orb_true_r. cbn [negb]. now rewrite andb_false_r. }
  split; [apply L|]. intros H.
  destruct (onExecuteCommand_cases command (Some userInput) w)
    as [E | [_ [u [Hu [_ E]]]]]; [exact E|].
  injection Hu as <-. rewrite E.
  apply startsWith_spec in H. destruct H as [r ->]. apply L.
Qed.

Lemma system_prefix_always_dropped_witness :
  onExecuteCommand "github.copilot.chat.sendRequest"
    (Some "  system: you are a --- helpful assistant") freshWorld
  = (Ok tt, freshWorld).
Proof.
  destruct (system_prefix_always_dropped "" "" ""
              "github.copilot.chat.sendRequest"
              "  system: you are a --- helpful assistant" freshWorld) as [_ H].
  apply H. reflexivity.
Defined.

(** * Plain prompts *)

Lemma looksLikeResponse_short (text : string) :
  String.length text <= 100 ->
  looksLikeResponse text
  = existsb (fun pattern => includes pattern text) responsePatterns.
Proof.
  intros H. unfold looksLikeResponse.
  destruct (existsb _ responsePatterns); [reflexivity|].
  apply Nat.ltb_ge in H. rewrite H. reflexivity.
Qed.

(** X8: a text without artifact only loses its blank lines and the white
    space at its ends in [cleanupPrompt]; when it has neither, it is
    returned as it is.  Such a prompt of at most 100 code units, without any
    of the seven response phrases and without a system signature, is
    written word for word under every capture mode, unless it is a
    duplicate (logging enabled, file system working). *)
Theorem plain_prompt_logged_verbatim
    (fileName context p : string) (w : World) :
  hasArtifact p = false ->
  cleanupPrompt p = dropBlankLines p /\
  (trim p = p -> forallb nonBlank (splitLines p) = true ->
   cleanupPrompt p = p /\
   (String.length p <= 100 ->
    existsb (fun pattern => includes pattern p) responsePatterns = false ->
    isSystemMessage p = false ->
    isDuplicate p w = (Ok false, w) ->
    enabled w = true -> faults w = [] ->
    logFile (exec (logPrompt fileName context p) w)
    = Some (fileBase w
            ++ promptEntry (clock w) (asRelativePath w fileName)
                 (contextFor w context p) p)%string)).
Proof.
  intros Ha.
  assert (C : cleanupPrompt p = dropBlankLines p).
  { unfold cleanupPrompt. destruct p; [reflexivity|]. cbn [truthy negb].
    now rewrite stripArtifacts_clean. }
  split; [exact C|]. intros Ht Hl.
  assert (E : cleanupPrompt p = p).
  { rewrite C. apply dropBlankLines_fixed; [|exact Ht].
    now rewrite (forallb_pointwise hasInk nonBlank)
      by (intros; symmetry; apply nonBlank_hasInk). }
  split; [exact E|]. intros Hlen Hp Hs Hd He Hf.
  unfold isDuplicate, gets in Hd. injection Hd as Hd.
  assert (Hb : isBlank p = false).
  { destruct (isBlank p) eqn:B; [|reflexivity].
    rewrite isBlank_hasInk, negb_true_iff in B. apply trim_empty in B.
    rewrite Ht in B. subst p. discriminate. }
  destruct (logPrompt_logged fileName context p w) as [H _];
    [| exact He | exact Hf |].
  - unfold logPromptAccepts. rewrite E, Hb, Hd, Hs.
    rewrite looksLikeResponse_short, Hp by exact Hlen.
    now rewrite andb_false_r.
  - rewrite H. unfold logPromptEntry. now rewrite E.
Qed.

Lemma plain_prompt_logged_verbatim_witness :
  logFile (exec (logPrompt "a.ts" "" "Why is the parser slow?") freshWorld)
  = Some (fileBase freshWorld
          ++ promptEntry (clock freshWorld) "a.ts" None
               "Why is the parser slow?")%string.
Proof.
  destruct (plain_prompt_logged_verbatim "a.ts" "" "Why is the parser slow?"
              freshWorld) as [_ H]; [reflexivity|].
  destruct H as [_ H]; [reflexivity | reflexivity |].
  apply H; try reflexivity. vm_compute. lia.
Defined.

(** * The command handlers *)

Lemma contextFor_user_input (w : World) (cleanPrompt : string) :
  contextFor w "User Input" cleanPrompt = None.
Proof.
  unfold contextFor. destruct (String.eqb "User Input" cleanPrompt); reflexivity.
Qed.

(** X9: the two command handlers of [setupCopilotListeners] read the
    enabled flag before anything else: with logging disabled they leave
    everything as it is, the history too.  The proxy looks at two commands
    only.  What the handlers forward is logged without a context block,
    also when contexts are switched on, because they pass the context
    ["User Input"]. *)
Theorem command_handlers_gate_first
    (command prompt : string) (arg0 : option string) (w : World) :
  (enabled w = false ->
   onSendRequest prompt w = (Ok tt, w) /\
   onExecuteCommand command arg0 w = (Ok tt, w)) /\
  (command <> "github.copilot.chat.sendRequest" ->
   command <> "github.copilot.interactiveSession.request" ->
   onExecuteCommand command arg0 w = (Ok tt, w)) /\
  (enabled w = true -> faults w = [] ->
   forall c, c = CallSendRequest prompt \/ c = CallExecuteCommand command arg0 ->
     stepCall c w = w \/
     exists cleanPrompt,
       logFile (stepCall c w)
       = Some (fileBase w
               ++ promptEntry (clock w) (asRelativePath w "Copilot Chat")
                    None cleanPrompt)%string).
Proof.
  split; [|split].
  - intros H. unfold onSendRequest, onExecuteCommand, bind, gets.
    now rewrite H.
  - intros H1 H2. unfold onExecuteCommand, bind, gets.
    apply String.eqb_neq in H1, H2. rewrite H1, H2.
    destruct (enabled w); reflexivity.
  - intros He Hf c Hc.
    assert (L : forall p,
      exec (logPrompt "Copilot Chat" "User Input" p) w = w \/
      exists cleanPrompt,
        logFile (exec (logPrompt "Copilot Chat" "User Input" p) w)
        = Some (fileBase w
                ++ promptEntry (clock w) (asRelativePath w "Copilot Chat")
                     None cleanPrompt)%string).
    { intros p. destruct (logPromptAccepts w p) eqn:A.
      - right. exists (cleanupPrompt p).
        destruct (logPrompt_logged "Copilot Chat" "User Input" p w A He Hf)
          as [H _].
        rewrite H. unfold logPromptEntry. now rewrite contextFor_user_input.
      - left. unfold exec. now rewrite logPrompt_rejected. }
    destruct Hc as [-> | ->]; cbn [stepCall]; unfold exec in *.
    + destruct (onSendRequest_cases prompt w) as [-> | [_ ->]];
        [now left | apply L].
    + destruct (onExecuteCommand_cases command arg0 w)
        as [-> | [_ [u [_ [_ ->]]]]]; [now left | apply L].
Qed.

Lemma command_handlers_gate_first_witness :
  onExecuteCommand "github.copilot.chat.sendRequest" (Some "add a logout form")
    (setEnabled false freshWorld)
  = (Ok tt, setEnabled false freshWorld) /\
  onExecuteCommand "workbench.action.files.save" (Some "add a logout form")
    freshWorld
  = (Ok tt, freshWorld).
Proof.
  split.
  - destruct (command_handlers_gate_first "github.copilot.chat.sendRequest" ""
                (Some "add a logout form") (setEnabled false freshWorld))
      as [H _].
    apply H. reflexivity.
  - destruct (command_handlers_gate_first "workbench.action.files.save" ""
                (Some "add a logout form") freshWorld) as [_ [H _]].
    apply H; discriminate.
Defined.

(** * The comparison key *)

Section Key.

Lemma isWhiteSpace_lowerChar (c : ascii) :
  isWhiteSpace (lowerChar c) = isWhiteSpace c.
Proof. destruct c as [[] [] [] [] [] [] [] []]; reflexivity. Qed.

Lemma trimStart_toLowerCase (s : string) :
  trimStart (toLowerCase s) = toLowerCase (trimStart s).
Proof.
  induction s as [|c s IH]; [reflexivity|]. cbn [toLowerCase trimStart].
  rewrite isWhiteSpace_lowerChar. now destruct (isWhiteSpace c).
Qed.

Lemma trimEnd_toLowerCase (s : string) :
  trimEnd (toLowerCase s) = toLowerCase (trimEnd s).
Proof.
  induction s as [|c s IH]; [reflexivity|]. cbn [toLowerCase trimEnd].
  rewrite IH, isWhiteSpace_lowerChar.
  destruct (trimEnd s); [destruct (isWhiteSpace c)|]; reflexivity.
Qed.

Lemma trim_toLowerCase (s : string) : trim (toLowerCase s) = toLowerCase (trim s).
Proof. unfold trim. now rewrite trimStart_toLowerCase, trimEnd_toLowerCase. Qed.

End Key.

(** X10: the key that [rememberPrompt] stores and [isDuplicate] looks up is
    canonical: taking the key of a key changes nothing, and a text has the
    key of its trimmed form and of its lower-case form.  Two texts that
    differ in case and outer white space only are the same prompt to
    [isDuplicate], in every history. *)
Theorem comparison_key_canonical (p q : string) (w : World) :
  normalized (normalized p) = normalized p /\
  normalized (trim p) = normalized p /\
  normalized (toLowerCase p) = normalized p /\
  (toLowerCase (trim q) = toLowerCase (trim p) ->
   isDuplicate q w = isDuplicate p w).
Proof.
  split; [|split; [|split]].
  - unfold normalized. now rewrite trim_toLowerCase, trim_idempotent,
      toLowerCase_idempotent.
  - apply normalized_trim.
  - unfold normalized. now rewrite trim_toLowerCase, toLowerCase_idempotent.
  - intros H. unfold isDuplicate, gets, normalized. now rewrite H.
Qed.

Lemma comparison_key_canonical_witness :
  isDuplicate "  FIX the bug" freshWorld = isDuplicate "fix THE BUG  " freshWorld.
Proof.
  destruct (comparison_key_canonical "fix THE BUG  " "  FIX the bug" freshWorld)
    as [_ [_ [_ H]]].
  apply H. reflexivity.
Defined.

(** X11: when [logUserInput] has accepted a prompt, the same prompt
    submitted again right away is reported as a duplicate exactly when its
    trimmed text is its own lower-case form: the method stores the trimmed
    text, and [isDuplicate] looks for the lower-case one. *)
Theorem logUserInput_repeat_known_iff
    (fileName promptText : string) (w : World) :
  logUserInputAccepts w promptText = true ->
  let w' := exec (logUserInput fileName promptText) w in
  isDuplicate promptText w' = (Ok true, w')
  <-> toLowerCase (trim promptText) = trim promptText.
Proof.
  intros A w'. split.
  - intros H.
    destruct (String.eqb (toLowerCase (trim promptText)) (trim promptText)) eqn:E;
      [now apply String.eqb_eq|].
    apply String.eqb_neq in E.
    pose proof (logUserInput_accepts_again fileName promptText w A E) as A'.
    fold w' in A'. unfold logUserInputAccepts in A'.
    apply andb_prop in A'. destruct A' as [_ A'].
    apply negb_true_iff in A'. rewrite normalized_trim in A'.
    unfold isDuplicate, gets in H. rewrite A' in H. discriminate.
  - intros E.
    pose proof (logUserInput_history fileName promptText w A) as Hh.
    cbn [step] in Hh. fold w' in Hh.
    unfold isDuplicate, gets. rewrite Hh. unfold normalized.
    now rewrite E, key_at_head.
Qed.

Lemma logUserInput_repeat_known_iff_witness :
  isDuplicate "  fix the bug "
    (exec (logUserInput "a.ts" "  fix the bug ") freshWorld)
  = (Ok true, exec (logUserInput "a.ts" "  fix the bug ") freshWorld).
Proof.
  destruct (logUserInput_repeat_known_iff "a.ts" "  fix the bug " freshWorld)
    as [_ H]; [reflexivity|].
  apply H. reflexivity.
Defined.

(** * Session markers *)

Section Session.

Lemma allChars_app (p : ascii -> bool) (a b : string) :
  allChars p (a ++ b) = allChars p a && allChars p b.
Proof.
  induction a as [|c a IH]; [reflexivity|]. cbn [append allChars].
  now rewrite IH, andb_assoc.
Qed.

Lemma allChars_weaken (p q : ascii -> bool) (s : string) :
  (forall c, p c = true -> q c = true) ->
  allChars p s = true -> allChars q s = true.
Proof.
  intros H. induction s as [|c s IH]; [reflexivity|]. cbn [allChars].
  intros Hs. apply andb_prop in Hs. destruct Hs as [Hc Hs].
  now rewrite (H c Hc), IH.
Qed.

Lemma afterDotStar_plain (ts suffix : string) :
  allChars (fun c => negb (isLineTerminator c)) ts = true ->
  Regex.afterDotStar (ts ++ suffix) = Regex.afterDotStar suffix.
Proof.
  induction ts as [|c ts IH]; [reflexivity|]. cbn [allChars append].
  intros H. apply andb_prop in H. destruct H as [Hc H].
  apply negb_true_iff in Hc. cbn [Regex.afterDotStar]. rewrite Hc. now apply IH.
Qed.

Lemma no_match_in_plain (m : Regex.matcher) (heads : ascii -> bool)
    (ts suffix : string) :
  startsOnlyAt heads m ->
  allChars (fun c => negb (heads c)) ts = true ->
  matchesAnywhere m (ts ++ suffix) = matchesAnywhere m suffix.
Proof.
  intros Hm. induction ts as [|c ts IH]; [reflexivity|]. cbn [allChars append].
  intros H. apply andb_prop in H. destruct H as [Hc H].
  apply negb_true_iff in Hc. cbn [matchesAnywhere].
  rewrite (Hm c _ Hc). now apply IH.
Qed.

Lemma fence_and_headings_start_at_hash_or_tick :
  Forall (startsOnlyAt hashOrTick)
    [Regex.codeFence;
     Regex.toEndOfLine "# GitHub Copilot Prompts Log";
     Regex.toEndOfLine "## Session Started:";
     Regex.toEndOfLine "## Session Ended:"].
Proof.
  repeat (apply Forall_cons || apply Forall_nil);
    intros c s H;
    destruct c as [[] [] [] [] [] [] [] []]; try discriminate H; reflexivity.
Qed.

Lemma plainTimestamp_parts (ts : string) :
  plainTimestamp ts = true ->
  allChars (fun c => negb (hashOrTick c)) ts = true /\
  allChars (fun c => negb (isLineTerminator c)) ts = true.
Proof.
  unfold plainTimestamp. intros H. split;
    refine (allChars_weaken _ _ ts _ H); intros c Hc;
    apply andb_prop in Hc; destruct Hc as [Hc Hl];
    apply andb_prop in Hc; destruct Hc as [Hh Ht]; [|exact Hl].
  unfold hashOrTick. apply negb_true_iff in Hh, Ht. now rewrite Hh, Ht.
Qed.

End Session.

Section SessionCleanup.

Lemma matchesAnywhere_cons (m : Regex.matcher) (c : ascii) (s : string) :
  matchesAnywhere m (String c s)
  = (match m (String c s) with Some _ => true | None => false end)
    || matchesAnywhere m s.
Proof. reflexivity. Qed.

Lemma replaceAll_no_match (m : Regex.matcher) (s : string) :
  matchesAnywhere m s = false -> Regex.replaceAll m s = s.
Proof. apply replaceFrom_no_match. Qed.

Lemma replaceFrom_skip (m : Regex.matcher) (fuel : nat) (c : ascii) (s : string) :
  m (String c s) = None ->
  Regex.replaceFrom m (S fuel) (String c s)
  = String c (Regex.replaceFrom m fuel s).
Proof. intros H. cbn [Regex.replaceFrom]. now rewrite H. Qed.

Lemma replaceFrom_hit (m : Regex.matcher) (fuel : nat) (s r rest : string) :
  m s = Some (r, rest) ->
  Regex.replaceFrom m (S fuel) s = (r ++ Regex.replaceFrom m fuel rest)%string.
Proof. intros H. cbn [Regex.replaceFrom]. now rewrite H. Qed.

Lemma replaceFrom_end (m : Regex.matcher) (fuel : nat) :
  m EmptyString = None -> Regex.replaceFrom m fuel EmptyString = EmptyString.
Proof.
  intros H. destruct fuel; [reflexivity|]. cbn [Regex.replaceFrom].
  now rewrite H.
Qed.

(** Walks over the fixed part in front of the timestamp, where the
    pattern does not match. *)
Ltac scan_prefix :=
  repeat (rewrite matchesAnywhere_cons;
          match goal with |- (match ?x with _ => _ end || _) = _ =>
            change x with (@None (string * string)) end;
          cbv iota; cbn [orb]).

Lemma sessionStart_earlier_passes (m : Regex.matcher) (ts : string) :
  In m [Regex.codeFence; Regex.toEndOfLine "# GitHub Copilot Prompts Log"] ->
  plainTimestamp ts = true ->
  Regex.replaceAll m (sessionStartContent ts) = sessionStartContent ts.
Proof.
  intros Hin Hp. apply replaceAll_no_match.
  destruct (plainTimestamp_parts ts Hp) as [Hh _].
  pose proof fence_and_headings_start_at_hash_or_tick as F.
  rewrite Forall_forall in F.
  assert (Hm : startsOnlyAt hashOrTick m) by (apply F; simpl in *; tauto).
  unfold sessionStartContent. cbn [append NL].
  destruct Hin as [<- | [<- | []]]; scan_prefix;
    rewrite (no_match_in_plain _ hashOrTick) by assumption; reflexivity.
Qed.

Lemma sessionEnd_earlier_passes (m : Regex.matcher) (ts : string) :
  In m [Regex.codeFence; Regex.toEndOfLine "# GitHub Copilot Prompts Log";
        Regex.toEndOfLine "## Session Started:"] ->
  plainTimestamp ts = true ->
  Regex.replaceAll m (sessionEndContent ts) = sessionEndContent ts.
Proof.
  intros Hin Hp. apply replaceAll_no_match.
  destruct (plainTimestamp_parts ts Hp) as [Hh _].
  pose proof fence_and_headings_start_at_hash_or_tick as F.
  rewrite Forall_forall in F.
  assert (Hm : startsOnlyAt hashOrTick m) by (apply F; simpl in *; tauto).
  unfold sessionEndContent. cbn [append NL].
  destruct Hin as [<- | [<- | [<- | []]]]; scan_prefix;
    rewrite (no_match_in_plain _ hashOrTick) by assumption; reflexivity.
Qed.

Lemma sessionStart_removed (ts : string) :
  plainTimestamp ts = true ->
  Regex.replaceAll (Regex.toEndOfLine "## Session Started:")
    (sessionStartContent ts)
  = (NL ++ NL ++ NL)%string.
Proof.
  intros Hp. destruct (plainTimestamp_parts ts Hp) as [_ Hl].
  unfold Regex.replaceAll, sessionStartContent.
  cbn [append NL String.length].
  rewrite replaceFrom_skip by reflexivity.
  rewrite (replaceFrom_hit _ _ _ EmptyString (String LF NL)).
  2:{ unfold Regex.toEndOfLine.
      cbn [startsWith Ascii.eqb Bool.eqb andb String.length drop
           Regex.afterDotStar].
      change (isLineTerminator " ") with false. cbv iota.
      now rewrite afterDotStar_plain. }
  cbn [append]. unfold NL.
  rewrite !replaceFrom_skip by reflexivity.
  rewrite replaceFrom_end by reflexivity. reflexivity.
Qed.

Lemma sessionEnd_removed (ts : string) :
  plainTimestamp ts = true ->
  Regex.replaceAll (Regex.toEndOfLine "## Session Ended:")
    (sessionEndContent ts)
  = (NL ++ NL ++ NL)%string.
Proof.
  intros Hp. destruct (plainTimestamp_parts ts Hp) as [_ Hl].
  unfold Regex.replaceAll, sessionEndContent.
  cbn [append NL String.length].
  rewrite replaceFrom_skip by reflexivity.
  rewrite (replaceFrom_hit _ _ _ EmptyString (String LF NL)).
  2:{ unfold Regex.toEndOfLine.
      cbn [startsWith Ascii.eqb Bool.eqb andb String.length drop
           Regex.afterDotStar].
      change (isLineTerminator " ") with false. cbv iota.
      now rewrite afterDotStar_plain. }
  cbn [append]. unfold NL.
  rewrite !replaceFrom_skip by reflexivity.
  rewrite replaceFrom_end by reflexivity. reflexivity.
Qed.

Lemma cleanupPrompt_sessionStart (ts : string) :
  plainTimestamp ts = true ->
  cleanupPrompt (sessionStartContent ts) = EmptyString.
Proof.
  intros Hp. unfold cleanupPrompt.
  replace (negb (truthy (sessionStartContent ts))) with false by reflexivity.
  unfold stripArtifacts, patternsToRemove. cbn [fold_left].
  rewrite !sessionStart_earlier_passes by (exact Hp || (simpl; tauto)).
  rewrite sessionStart_removed by exact Hp. vm_compute. reflexivity.
Qed.

Lemma cleanupPrompt_sessionEnd (ts : string) :
  plainTimestamp ts = true ->
  cleanupPrompt (sessionEndContent ts) = EmptyString.
Proof.
  intros Hp. unfold cleanupPrompt.
  replace (negb (truthy (sessionEndContent ts))) with false by reflexivity.
  unfold stripArtifacts, patternsToRemove. cbn [fold_left].
  rewrite !sessionEnd_earlier_passes by (exact Hp || (simpl; tauto)).
  rewrite sessionEnd_removed by exact Hp. vm_compute. reflexivity.
Qed.

End SessionCleanup.

(** X12: the session markers.  [logSessionStart] and [logSessionEnd] append
    their heading when logging is enabled and the file system works, and
    never touch the history.  The logger does not log its own markers: a
    heading that comes back as a prompt (from the clipboard, say) is cleaned
    to the empty text and dropped by [logPrompt], for every timestamp
    without hash, backtick and line terminator. *)
Theorem session_markers_not_logged_as_prompts
    (fileName context timestamp : string) (w : World) :
  (enabled w = true -> faults w = [] ->
   logFile (exec logSessionStart w)
   = Some (fileBase w ++ sessionStartContent (clock w))%string /\
   logFile (exec logSessionEnd w)
   = Some (fileBase w ++ sessionEndContent (clock w))%string) /\
  recentPrompts (exec logSessionStart w) = recentPrompts w /\
  recentPrompts (exec logSessionEnd w) = recentPrompts w /\
  (plainTimestamp timestamp = true ->
   logPrompt fileName context (sessionStartContent timestamp) w = (Ok tt, w) /\
   logPrompt fileName context (sessionEndContent timestamp) w = (Ok tt, w)).
Proof.
  split; [|split; [|split]].
  - intros He Hf. split.
    + destruct (appendToLog_healthy (sessionStartContent (clock w)) w He Hf)
        as [H _]; [rewrite isBlank_hasInk; reflexivity | exact H].
    + destruct (appendToLog_healthy (sessionEndContent (clock w)) w He Hf)
        as [H _]; [rewrite isBlank_hasInk; reflexivity | exact H].
  - apply (appendToLog_recentPrompts (sessionStartContent (clock w)) w).
  - apply (appendToLog_recentPrompts (sessionEndContent (clock w)) w).
  - intros Hp. split; apply logPrompt_rejected; unfold logPromptAccepts;
      [rewrite cleanupPrompt_sessionStart by exact Hp
      |rewrite cleanupPrompt_sessionEnd by exact Hp];
      cbn [isBlank truthy negb orb]; now rewrite andb_false_r.
Qed.

Lemma session_markers_not_logged_as_prompts_witness :
  logPrompt "Clipboard" "User Input"
    (sessionStartContent "2025-05-05 10:00:00") freshWorld
  = (Ok tt, freshWorld) /\
  logFile (exec logSessionStart freshWorld)
  = Some (fileBase freshWorld ++ sessionStartContent "2025-05-05 10:00:00")%string.
Proof.
  destruct (session_markers_not_logged_as_prompts "Clipboard" "User Input"
              "2025-05-05 10:00:00" freshWorld) as [H1 [_ [_ H2]]].
  split.
  - apply H2. reflexivity.
  - apply H1; reflexivity.
Defined.

(** * One log file for each day *)

Section FileName.

Lemma string_of_uint_digits (d : Decimal.uint) :
  allChars isDigit (NilEmpty.string_of_uint d) = true.
Proof. induction d; cbn; auto. Qed.

Lemma decimal_digits (n : nat) : allChars isDigit (decimal n) = true.
Proof. apply string_of_uint_digits. Qed.

Lemma decimal_injective (n n' : nat) : decimal n = decimal n' -> n = n'.
Proof.
  unfold decimal. intros H.
  assert (E : Some (Nat.to_uint n) = Some (Nat.to_uint n'))
    by now rewrite <- !NilEmpty.usu, H.
  injection E as E.
  now rewrite <- (Unsigned.of_to n), <- (Unsigned.of_to n'), E.
Qed.

Lemma padStart2_digits (s : string) :
  allChars isDigit s = true -> allChars isDigit (padStart2 s) = true.
Proof.
  intros H. unfold padStart2. rewrite allChars_app, H.
  destruct (2 - String.length s) as [|[|[|k]]] eqn:E; try reflexivity. lia.
Qed.

(** Two texts that agree after a run of digits and one separator agree on
    the run and on the rest. *)
Lemma split_at_separator (sep : ascii) (a a' b b' : string) :
  isDigit sep = false ->
  allChars isDigit a = true -> allChars isDigit a' = true ->
  (a ++ String sep b)%string = (a' ++ String sep b')%string ->
  a = a' /\ b = b'.
Proof.
  intros Hs. revert a'. induction a as [|c a IH]; intros [|c' a'] Ha Ha' E;
    cbn [append allChars] in *.
  - injection E as E. now split.
  - injection E as <- _. apply andb_prop in Ha'. destruct Ha' as [Hc _].
    congruence.
  - injection E as -> _. apply andb_prop in Ha. destruct Ha as [Hc _].
    congruence.
  - injection E as <- E. apply andb_prop in Ha, Ha'.
    destruct Ha as [_ Ha], Ha' as [_ Ha'].
    destruct (IH a' Ha Ha' E) as [-> ->]. now split.
Qed.

Lemma padStart2_distinct (bound n n' : nat) :
  padStart2_distinct_below bound = true ->
  n < bound -> n' < bound ->
  padStart2 (decimal n) = padStart2 (decimal n') -> n = n'.
Proof.
  unfold padStart2_distinct_below. intros H Hn Hn' E.
  rewrite forallb_forall in H.
  assert (I : In n (seq 0 bound)) by (apply in_seq; lia).
  specialize (H n I). rewrite forallb_forall in H.
  assert (I' : In n' (seq 0 bound)) by (apply in_seq; lia).
  specialize (H n' I'). rewrite E, String.eqb_refl in H.
  now apply Nat.eqb_eq.
Qed.

Lemma append_cancel_l (a b b' : string) :
  (a ++ b)%string = (a ++ b')%string -> b = b'.
Proof.
  induction a as [|c a IH]; cbn [append]; intros H; [exact H|].
  injection H as H. now apply IH.
Qed.

End FileName.

(** X13: the file name that [getLogFilePath] builds names the day.  For
    every year, every month index 0..11 and every day 1..31 the month and
    the day are written with two digits, and two dates have the same file
    name only when they are the same date: prompts of different days never
    go to the same file. *)
Theorem logFileName_names_the_day (year month date year' month' date' : nat) :
  month < 12 -> 1 <= date <= 31 -> month' < 12 -> 1 <= date' <= 31 ->
  String.length (dateString year month date)
  = String.length (decimal year) + 6 /\
  (logFileName year month date = logFileName year' month' date' ->
   year = year' /\ month = month' /\ date = date').
Proof.
  intros Hm Hd Hm' Hd'.
  assert (P : padStart2_distinct_below 32 = true) by (vm_compute; reflexivity).
  split.
  - unfold dateString. rewrite !length_append.
    assert (L : forall n, 1 <= n <= 31 ->
                String.length (padStart2 (decimal n)) = 2).
    { intros n Hn.
      assert (B : forallb (fun k => String.length (padStart2 (decimal k)) =? 2)
                    (seq 1 31) = true) by (vm_compute; reflexivity).
      rewrite forallb_forall in B. apply Nat.eqb_eq, B, in_seq. lia. }
    rewrite !L by lia. simpl. lia.
  - unfold logFileName, dateString. intros E.
    apply append_cancel_l in E. rewrite !append_assoc in E.
    cbn [append] in E.
    apply split_at_separator in E; try apply decimal_digits; [|reflexivity].
    destruct E as [Ey E]. apply decimal_injective in Ey.
    apply split_at_separator in E;
      try (apply padStart2_digits, decimal_digits); [|reflexivity].
    destruct E as [Em E].
    apply (padStart2_distinct 32) in Em; [|exact P|lia|lia].
    change ".md" with (String "." "md") in E.
    apply split_at_separator in E;
      try (apply padStart2_digits, decimal_digits); [|reflexivity].
    destruct E as [Ed _].
    apply (padStart2_distinct 32) in Ed; [|exact P|lia|lia].
    repeat split; lia.
Qed.

Lemma logFileName_names_the_day_witness :
  logFileName 2025 4 5 = "prompt-log-2025-05-05.md" /\
  String.length (dateString 2025 4 5) = 10.
Proof.
  destruct (logFileName_names_the_day 2025 4 5 2025 4 5) as [H _]; try lia.
  split; [reflexivity | exact H].
Defined.

(** * The work of one call is bounded *)

Section BoundedWork.


End BoundedWork.


(** * The text-change listener *)

Section Listener.

Lemma endsWith_spec (p s : string) :
  endsWith p s = true <-> exists before, s = (before ++ p)%string.
Proof.
  induction s as [|c s IH]; cbn [endsWith].
  - rewrite orb_false_r, String.eqb_eq. split.
    + intros ->. now exists EmptyString.
    + intros [b H]. destruct b; [now symmetry | discriminate].
  - rewrite orb_true_iff, String.eqb_eq, IH. split.
    + intros [-> | [b ->]]; [now exists EmptyString | now exists (String c b)].
    + intros [b H]. destruct b as [|x b]; [left; now symmetry|].
      right. cbn [append] in H. injection H as _ ->. now exists b.
Qed.

Lemma logFileName_recognised (folder : string) (year month date : nat) :
  includes "prompt-log" (folder ++ logFileName year month date) = true /\
  endsWith ".md" (folder ++ logFileName year month date) = true.
Proof.
  split.
  - apply includes_spec. exists folder, ("-" ++ dateString year month date ++ ".md")%string.
    reflexivity.
  - apply endsWith_spec.
    exists (folder ++ "prompt-log-" ++ dateString year month date)%string.
    unfold logFileName. now rewrite !append_assoc.
Qed.

Lemma long_trim_not_blank (text : string) :
  5 < String.length (trim text) -> isBlank text = false.
Proof.
  intros H. unfold isBlank. destruct text as [|c t]; [simpl in H; lia|].
  cbn [truthy negb orb]. apply Nat.eqb_neq. lia.
Qed.

End Listener.

(** X15: the text-change listener does not feed the log back into itself:
    a change in a file that [getLogFilePath] names, in whatever folder, is
    ignored, as are all changes while logging is disabled.  A change in
    another file that looks like a prompt (6 to 199 code units after
    trimming; a question mark, a command verb at the start, or one
    capitalised sentence) is written through [logUserInput], unless it is a
    duplicate (logging enabled, file system working). *)
Theorem text_changes_of_the_log_ignored
    (folder fileName text : string) (year month date : nat)
    (activeFile : option string) (changes : list string) (w : World) :
  onTextChange (Some (folder ++ logFileName year month date)%string) changes w
  = (Ok tt, w) /\
  (enabled w = false -> onTextChange activeFile changes w = (Ok tt, w)) /\
  (includes "prompt-log" fileName = false -> endsWith ".md" fileName = false ->
   5 < String.length (trim text) < 200 -> isLikelyPrompt text = true ->
   isDuplicate text w = (Ok false, w) ->
   enabled w = true -> faults w = [] ->
   logFile (exec (onTextChange (Some fileName) [text]) w)
   = Some (fileBase w ++ logUserInputEntry w fileName text)%string).
Proof.
  split; [|split].
  - unfold onTextChange, bind, gets. destruct (enabled w); [|reflexivity].
    cbn [negb]. destruct (logFileName_recognised folder year month date) as [-> _].
    reflexivity.
  - intros H. unfold onTextChange, bind, gets. now rewrite H.
  - intros Hn Hm [Hlo Hhi] Hl Hd He Hf.
    pose proof (long_trim_not_blank text Hlo) as Hb.
    assert (Ht : truthy text = true)
      by (destruct text; [simpl in Hlo; lia | reflexivity]).
    apply Nat.ltb_lt in Hlo, Hhi.
    assert (E : onTextChange (Some fileName) [text] w
                = bind (logUserInput fileName text) (fun _ => ret tt) w).
    { unfold onTextChange. unfold bind at 1, gets at 1. rewrite He.
      cbn [negb]. rewrite Hn, Hm. cbn [orb forEach].
      now rewrite Ht, Hlo, Hhi, Hl. }
    unfold exec. rewrite E. unfold bind.
    pose proof (logUserInput_Ok fileName text w) as Ok1.
    destruct (logUserInput fileName text w) as [[[]|e] w1] eqn:R;
      [|discriminate].
    cbn [ret snd].
    unfold isDuplicate, gets in Hd. injection Hd as Hd.
    destruct (logUserInput_logged fileName text w) as [H _];
      [| exact He | exact Hf |].
    + unfold logUserInputAccepts. now rewrite Hb, normalized_trim, Hd.
    + unfold exec in H. now rewrite R in H.
Qed.

Lemma text_changes_of_the_log_ignored_witness :
  onTextChange (Some "/work/copilot-prompts/prompt-log-2025-05-05.md")
    ["fix the bug in the parser?"] freshWorld
  = (Ok tt, freshWorld) /\
  logFile (exec (onTextChange (Some "/work/src/parser.ts")
                   ["Fix the bug in the parser"]) freshWorld)
  = Some (fileBase freshWorld
          ++ logUserInputEntry freshWorld "/work/src/parser.ts"
               "Fix the bug in the parser")%string.
Proof.
  split.
  - destruct (text_changes_of_the_log_ignored "/work/copilot-prompts/" ""
                "" 2025 4 5 None ["fix the bug in the parser?"] freshWorld)
      as [H _]. exact H.
  - destruct (text_changes_of_the_log_ignored "" "/work/src/parser.ts"
                "Fix the bug in the parser" 0 0 0 None [] freshWorld)
      as [_ [_ H]].
    apply H; try reflexivity. vm_compute. lia.
Defined.

(** * [cleanupPrompt] of the first revision *)

Section FirstRevisionCleanup.

Lemma skipWhile_startsInk (s : string) :
  startsInk (Regex.skipWhile isWhiteSpace s) = true.
Proof.
  induction s as [|c s IH]; [reflexivity|]. cbn [Regex.skipWhile].
  destruct (isWhiteSpace c) eqn:E; [exact IH|]. cbn [startsInk]. now rewrite E.
Qed.

Lemma singleSpaced_ink_head (b : bool) (c : ascii) (s : string) :
  isWhiteSpace c = false ->
  singleSpaced b (String c s) = singleSpaced false s.
Proof. intros H. cbn [singleSpaced]. now rewrite H. Qed.

Lemma collapse_singleSpaced (fuel : nat) :
  forall s, String.length s <= fuel ->
    singleSpaced false (Regex.replaceFrom FirstRevision.whiteSpaceRun fuel s) = true /\
    (startsInk s = true ->
     singleSpaced true (Regex.replaceFrom FirstRevision.whiteSpaceRun fuel s) = true).
Proof.
  induction fuel as [|fuel IH]; intros s Hl.
  - destruct s; [split; reflexivity | simpl in Hl; lia].
  - destruct s as [|c s]; [split; reflexivity|].
    cbn [Regex.replaceFrom FirstRevision.whiteSpaceRun].
    simpl in Hl. destruct (isWhiteSpace c) eqn:W.
    + cbn [append].
      pose proof (length_skipWhile isWhiteSpace s) as L.
      destruct (IH (Regex.skipWhile isWhiteSpace s)) as [_ H]; [lia|].
      specialize (H (skipWhile_startsInk s)). split.
      * cbn [singleSpaced]. change (isWhiteSpace " ") with true. cbv iota.
        now rewrite H.
      * cbn [startsInk]. rewrite W. discriminate.
    + destruct (IH s) as [H _]; [lia|].
      split; [|intros _]; now rewrite singleSpaced_ink_head.
Qed.

Lemma singleSpaced_trimStart (b : bool) (s : string) :
  singleSpaced b s = true -> singleSpaced false (trimStart s) = true.
Proof.
  revert b. induction s as [|c s IH]; intros b H; [reflexivity|].
  cbn [trimStart]. cbn [singleSpaced] in H.
  destruct (isWhiteSpace c) eqn:W.
  - apply andb_prop in H. destruct H as [_ H]. now apply (IH true).
  - now rewrite singleSpaced_ink_head.
Qed.

Lemma singleSpaced_trimEnd (b : bool) (s : string) :
  singleSpaced b s = true -> singleSpaced b (trimEnd s) = true.
Proof.
  revert b. induction s as [|c s IH]; intros b H; [reflexivity|].
  cbn [trimEnd]. cbn [singleSpaced] in H.
  destruct (isWhiteSpace c) eqn:W.
  - apply andb_prop in H. destruct H as [Hc H]. apply IH in H.
    destruct (trimEnd s) as [|d t]; [reflexivity|].
    cbn [singleSpaced]. cbn [singleSpaced] in H. now rewrite W, Hc, H.
  - apply IH in H. destruct (trimEnd s) as [|d t].
    + cbn [singleSpaced]. now rewrite W.
    + rewrite singleSpaced_ink_head by exact W. exact H.
Qed.

Lemma lineTerminator_isWhiteSpace (c : ascii) :
  isLineTerminator c = true -> isWhiteSpace c = true.
Proof. destruct c as [[] [] [] [] [] [] [] []]; try discriminate; reflexivity. Qed.

Lemma singleSpaced_one_line (b : bool) (s : string) :
  singleSpaced b s = true ->
  allChars (fun c => negb (isLineTerminator c)) s = true.
Proof.
  revert b. induction s as [|c s IH]; intros b H; [reflexivity|].
  cbn [singleSpaced] in H. cbn [allChars].
  destruct (isWhiteSpace c) eqn:W.
  - apply andb_prop in H. destruct H as [Hc H].
    apply andb_prop in Hc. destruct Hc as [Hc _].
    apply Ascii.eqb_eq in Hc. subst c. cbn [negb andb]. now apply (IH true).
  - destruct (isLineTerminator c) eqn:L.
    + apply lineTerminator_isWhiteSpace in L. congruence.
    + cbn [negb andb]. now apply (IH false).
Qed.

Lemma singleSpaced_no_double_space (b : bool) (s : string) :
  singleSpaced b s = true -> includes "  " s = false.
Proof.
  revert b. induction s as [|c s IH]; intros b H; [reflexivity|].
  cbn [includes]. cbn [singleSpaced] in H.
  destruct (isWhiteSpace c) eqn:W.
  - apply andb_prop in H. destruct H as [_ H]. rewrite (IH true H), orb_false_r.
    destruct s as [|d s]; [cbn; now rewrite andb_false_r|].
    cbn [startsWith]. cbn [singleSpaced] in H.
    destruct (Ascii.eqb " " d) eqn:D; [|now rewrite andb_false_r].
    apply Ascii.eqb_eq in D. subst d. discriminate H.
  - rewrite (IH false H), orb_false_r. cbn [startsWith].
    destruct (Ascii.eqb " " c) eqn:D; [|reflexivity].
    apply Ascii.eqb_eq in D. subst c. discriminate W.
Qed.

Lemma nonExpanding_v1_codeBlock : nonExpanding FirstRevision.codeBlock.
Proof.
  intros s r rest. unfold FirstRevision.codeBlock.
  destruct (startsWith "```" s) eqn:E; [|discriminate].
  apply startsWith_length in E. change (String.length "```") with 3 in E.
  pose proof (length_drop 3 s) as D. remember (drop 3 s) as d.
  destruct (Regex.lazyToFence d) as [[i x]|] eqn:F; [|discriminate].
  intros H. injection H as <- <-. apply length_lazyToFence in F. simpl. lia.
Qed.

Lemma nonExpanding_whiteSpaceRun : nonExpanding FirstRevision.whiteSpaceRun.
Proof.
  intros s r rest. unfold FirstRevision.whiteSpaceRun.
  destruct s as [|c s]; [discriminate|]. destruct (isWhiteSpace c); [|discriminate].
  intros H. injection H as <- <-.
  pose proof (length_skipWhile isWhiteSpace s). simpl. lia.
Qed.

Lemma nonExpanding_toEndOfLine (lit : string) :
  0 < String.length lit -> nonExpanding (Regex.toEndOfLine lit).
Proof.
  intros H. apply consumes_nonExpanding; [now apply consumes_toEndOfLine|].
  intros s r rest. unfold Regex.toEndOfLine. destruct (startsWith lit s);
    [|discriminate]. intros E. now injection E.
Qed.

Lemma v1_patterns_nonExpanding :
  Forall nonExpanding FirstRevision.artifactPatterns.
Proof.
  pose proof patterns_nonExpanding as P. rewrite Forall_forall in P.
  unfold FirstRevision.artifactPatterns.
  repeat (apply Forall_cons || apply Forall_nil);
    try (apply nonExpanding_toEndOfLine; simpl; lia);
    apply P; unfold patternsToRemove; simpl; tauto.
Qed.

Lemma length_fold_replaceAll (patterns : list Regex.matcher) (s : string) :
  Forall nonExpanding patterns ->
  String.length (fold_left (fun text pattern => Regex.replaceAll pattern text)
                           patterns s)
  <= String.length s.
Proof.
  intros P. revert s. induction P as [|m ms Hm _ IH]; intros s;
    cbn [fold_left]; [lia|].
  specialize (IH (Regex.replaceAll m s)). unfold Regex.replaceAll in *.
  pose proof (length_replaceFrom m Hm (String.length s) s). lia.
Qed.

End FirstRevisionCleanup.

(** X16: the first revision of [cleanupPrompt] returns one line.  For every
    input the result holds white space only as single spaces between other
    characters: no line terminator, no tab, no two spaces in a row, none at
    the ends; and the result is never longer than the input. *)
Theorem first_revision_cleanup_one_line (s : string) :
  let t := FirstRevision.cleanupPrompt s in
  singleSpaced false t = true /\
  trim t = t /\
  allChars (fun c => negb (isLineTerminator c)) t = true /\
  includes "  " t = false /\
  String.length t <= String.length s.
Proof.
  intros t.
  assert (S : singleSpaced false t = true).
  { unfold t, FirstRevision.cleanupPrompt.
    destruct (negb (truthy s)); [reflexivity|].
    unfold trim at 1. apply singleSpaced_trimEnd.
    apply (singleSpaced_trimStart false). unfold Regex.replaceAll.
    now apply collapse_singleSpaced. }
  split; [exact S|]. split; [|split; [|split]].
  - unfold t, FirstRevision.cleanupPrompt.
    destruct (negb (truthy s)); [reflexivity | apply trim_idempotent].
  - now apply (singleSpaced_one_line false).
  - now apply (singleSpaced_no_double_space false).
  - unfold t, FirstRevision.cleanupPrompt.
    destruct (negb (truthy s)); [simpl; lia|].
    match goal with |- String.length (trim (Regex.replaceAll _ ?x)) <= _ =>
      pose proof (length_trim (Regex.replaceAll FirstRevision.whiteSpaceRun x)) as H1;
      pose proof (length_replaceFrom _ nonExpanding_whiteSpaceRun
                    (String.length x) x) as H2;
      fold (Regex.replaceAll FirstRevision.whiteSpaceRun x) in H2
    end.
    match type of H2 with _ <= String.length (trim (joinLines (filter _ (splitLines ?y)))) =>
      pose proof (length_trim (joinLines (filter FirstRevision.keepLine (splitLines y)))) as H3;
      pose proof (length_joinLines_filter FirstRevision.keepLine (splitLines y)) as H4;
      rewrite joinLines_splitLines in H4;
      pose proof (length_fold_replaceAll FirstRevision.artifactPatterns
                    (Regex.replaceAll FirstRevision.codeBlock s)
                    v1_patterns_nonExpanding) as H5
    end.
    pose proof (length_replaceFrom _ nonExpanding_v1_codeBlock
                  (String.length s) s) as H6.
    fold (Regex.replaceAll FirstRevision.codeBlock s) in H6. lia.
Qed.
